(** * gif-to-spritesheet: the frame adapter and the layout engine

    A shallow embedding of [src/lib/gif-processor.ts] ([extractFrames] and
    [generateSpritesheet]) together with the properties of the sheet
    geometry that the specification states.

    Numbers.  Every number the engine computes with is an integer in the
    program's intended use (pixel sizes, a padding, a column count, array
    lengths), far below 2^53, where the arithmetic of JavaScript numbers
    is exact; they are embedded as [Z].  [Math.ceil(Math.sqrt(n))] and
    [Math.ceil(a / b)] are embedded by their exact integer values.

    Effects.  The engine is an [async] function that either resolves with
    a result or rejects with an exception; it is embedded as a function
    into [Completion], an error monad.  The browser objects it drives
    (an [OffscreenCanvas], its 2D context, [Blob], [URL]) are embedded by
    a small concrete model, module [Platform] below.

    The application.  The handlers of [src/App.tsx] that feed the engine
    (file selection, frame removal, reprocessing, download names), the
    columns handler of [src/components/Sidebar.tsx], the drop handler of
    [src/components/DropZone.tsx] and the animation index of
    [src/components/Preview.tsx] are embedded as functions on the
    component state, modules [App] and [Preview]. *)

From Stdlib Require Import Ascii String ZArith List Lia Bool Permutation.
Import ListNotations.
Open Scope Z_scope.

(** ** Completions: a value, or a thrown exception *)

Inductive Exception : Type :=
| Error (message : string)   (* [new Error(message)], thrown by the engine itself *)
| TypeError                  (* thrown by the runtime: a property read on [undefined],
                                an integer argument out of its range *)
| DOMException (name : string).
                             (* thrown by the canvas and image interfaces *)

Abbreviation IndexSizeError := (DOMException "IndexSizeError").
Abbreviation InvalidStateError := (DOMException "InvalidStateError").

Inductive Completion (A : Type) : Type :=
| Return (a : A)
| Throw (e : Exception).
Arguments Return {A} a.
Arguments Throw {A} e.

Definition bind {A B : Type} (c : Completion A) (k : A -> Completion B)
  : Completion B :=
  match c with
  | Return a => k a
  | Throw e => Throw e
  end.

Notation "x <- c ;; k" := (bind c (fun x => k))
  (at level 61, c at next level, right associativity).

(** ** Data model (gif-processor.ts, lines 3-30) *)

Inductive LayoutMode : Type := horizontal | vertical | grid.

Module ProcessingConfig.
Record t : Type := mk
  { layout : LayoutMode;
    padding : Z;
    columns : option Z   (* [columns?: number], only for grid *) }.
End ProcessingConfig.

(** [ImageData]: a flat RGBA byte array, four entries per pixel, row by row. *)
Module ImageData.
Record t : Type := mk
  { data : list Z;
    width : Z;
    height : Z }.
End ImageData.

Module Dims.
Record t : Type := mk
  { width : Z;
    height : Z;
    top : Z;
    left : Z }.
End Dims.

Module SpriteFrame.
Record t : Type := mk
  { id : Z;
    imageData : ImageData.t;
    dims : Dims.t;
    delay : Z }.
End SpriteFrame.

(** One entry of [SpriteSheetResult.frames]. *)
Module Placement.
Record t : Type := mk
  { x : Z;
    y : Z;
    w : Z;
    h : Z;
    duration : Z }.
End Placement.

(** ** The browser platform, as far as the engine touches it *)

Module Platform.

Definition RGBA : Type := (Z * Z * Z * Z)%type.
Definition transparent : RGBA := (0, 0, 0, 0).

(** A canvas bitmap: its size and the colour of each pixel. *)
Record Canvas : Type := mkCanvas
  { cv_width : Z;
    cv_height : Z;
    cv_pixel : Z -> Z -> RGBA }.

(** A [Blob] holding the lossless PNG encoding of a bitmap. *)
Record Blob : Type := mkBlob { blob_bitmap : Canvas }.

(** What differs between hosts: the largest canvas size the constructor's
    integer conversion takes, whether a 2D context can be had for a canvas
    of a given size, whether (and with which exception, by name) the
    encoding of a bitmap of a given size fails, and the object URLs handed
    out. *)
Record Env : Type := mkEnv
  { canvas_size_in_range : Z -> Z -> bool;
    context2d_available : Z -> Z -> bool;
    encoding_failure : Z -> Z -> option string;
    createObjectURL : Blob -> string }.

(** [new OffscreenCanvas(width, height)]: the sizes are [[EnforceRange]]
    unsigned integers, a negative one or one above the range is a
    [TypeError]; the bitmap starts fully transparent. *)
Definition new_OffscreenCanvas (env : Env) (width height : Z)
  : Completion Canvas :=
  if (width <? 0) || (height <? 0) then Throw TypeError
  else if canvas_size_in_range env width height
  then Return (mkCanvas width height (fun _ _ => transparent))
  else Throw TypeError.

(** [canvas.getContext('2d')]: the context, which draws on the canvas it
    came from, or [null]. *)
Definition getContext (env : Env) (canvas : Canvas) : option Canvas :=
  if context2d_available env (cv_width canvas) (cv_height canvas)
  then Some canvas else None.

Definition in_rect (px py rx ry rw rh : Z) : bool :=
  (rx <=? px) && (px <? rx + rw) && (ry <=? py) && (py <? ry + rh).

(** The pixel of an [ImageData] at column [u], row [v]. *)
Definition image_pixel (img : ImageData.t) (u v : Z) : RGBA :=
  let k := Z.to_nat (4 * (v * ImageData.width img + u)) in
  let d := ImageData.data img in
  (nth k d 0, nth (k + 1) d 0, nth (k + 2) d 0, nth (k + 3) d 0).

(** A canvas keeps its colours premultiplied by alpha, in eight bits
    each, rounded to the nearest: what is read back of a colour that is
    not opaque is not what was written. *)
Definition premultiply (c a : Z) : Z := (c * a + 127) / 255.

Definition unpremultiply (c a : Z) : Z :=
  if a =? 0 then 0 else (c * 255 + a / 2) / a.

Definition stored_colour (px : RGBA) : RGBA :=
  let '(r, g, b, a) := px in
  (unpremultiply (premultiply r a) a, unpremultiply (premultiply g a) a,
   unpremultiply (premultiply b a) a, a).

(** [ctx.putImageData(img, dx, dy)]: the image's pixels replace (no
    blending) those of the bitmap in the rectangle at [(dx, dy)], clipped
    to the bitmap; each colour is kept as the canvas stores it. *)
Definition putImageData (ctx : Canvas) (img : ImageData.t) (dx dy : Z)
  : Canvas :=
  mkCanvas (cv_width ctx) (cv_height ctx)
    (fun px py =>
       if in_rect px py dx dy (ImageData.width img) (ImageData.height img)
          && in_rect px py 0 0 (cv_width ctx) (cv_height ctx)
       then stored_colour (image_pixel img (px - dx) (py - dy))
       else cv_pixel ctx px py).

(** [canvas.convertToBlob({type: 'image/png'})]: rejects with an
    [IndexSizeError] when the bitmap has no pixels, and with the host's
    exception when the host cannot encode a bitmap of that size. *)
Definition convertToBlob (env : Env) (canvas : Canvas) : Completion Blob :=
  if (cv_width canvas =? 0) || (cv_height canvas =? 0)
  then Throw IndexSizeError
  else match encoding_failure env (cv_width canvas) (cv_height canvas) with
       | Some name => Throw (DOMException name)
       | None => Return (mkBlob canvas)
       end.

End Platform.

Module SpriteSheetResult.
Record t : Type := mk
  { blob : Platform.Blob;
    url : string;
    width : Z;
    height : Z;
    frames : list Placement.t }.
End SpriteSheetResult.

(** ** JavaScript arithmetic used by the engine *)

(** [Math.max(x, ...xs)] on a spread with at least one element. *)
Definition Math_max (x : Z) (xs : list Z) : Z := fold_left Z.max xs x.

(** [Math.ceil(Math.sqrt(n))] for an array length [n]. *)
Definition Math_ceil_sqrt (n : Z) : Z :=
  let s := Z.sqrt n in if s * s =? n then s else s + 1.

(** [Math.ceil(a / b)], for [b] other than 0. *)
Definition Math_ceil_div (a b : Z) : Z := - ((- a) / b).

(** [v || d] on an optional number: [undefined] and [0] are falsy. *)
Definition js_or (v : option Z) (d : Z) : Z :=
  match v with
  | Some c => if c =? 0 then d else c
  | None => d
  end.

(** ** The layout engine (gif-processor.ts, lines 54-183) *)

(** Lines 110-124: columns and rows of the sheet.  ([cols] and [rows]
    start at 1; each of the three layouts, all there are, assigns both.) *)
Definition grid_shape (layout : LayoutMode) (columns : option Z) (count : Z)
  : Z * Z :=
  match layout with
  | horizontal => (count, 1)
  | vertical => (1, count)
  | grid =>
      let preferredCols := js_or columns (Math_ceil_sqrt count) in
      (preferredCols, Math_ceil_div count preferredCols)
  end.

Section PlacementLoop.

Variable frames : list SpriteFrame.t.
Variables cols maxWidth maxHeight padding : Z.

(** The body of the loop of lines 152-171 at index [i]: the placement it
    pushes. *)
Definition placement_at (i : nat) (frame : SpriteFrame.t) : Placement.t :=
  let col := Z.rem (Z.of_nat i) cols in
  let row := Z.of_nat i / cols in
  let x := col * (maxWidth + padding) in
  let y := row * (maxHeight + padding) in
  Placement.mk x y
    (Dims.width (SpriteFrame.dims frame))
    (Dims.height (SpriteFrame.dims frame))
    (SpriteFrame.delay frame).

(** [for (let i = ...; i < count; i++)] with [n] iterations left; the
    state is the bitmap drawn so far and [spriteData].  Reading a field of
    [frames[i]] beyond the array is a [TypeError]. *)
Fixpoint place_loop (n i : nat)
    (ctx : Platform.Canvas) (spriteData : list Placement.t)
  : Completion (Platform.Canvas * list Placement.t) :=
  match n with
  | O => Return (ctx, spriteData)
  | S n' =>
      match nth_error frames i with
      | None => Throw TypeError
      | Some frame =>
          let p := placement_at i frame in
          place_loop n' (S i)
            (Platform.putImageData ctx (SpriteFrame.imageData frame)
               (Placement.x p) (Placement.y p))
            (spriteData ++ [p])
      end
  end.

End PlacementLoop.

Definition frame_width (f : SpriteFrame.t) : Z :=
  Dims.width (SpriteFrame.dims f).
Definition frame_height (f : SpriteFrame.t) : Z :=
  Dims.height (SpriteFrame.dims f).

(** [generateSpritesheet], in the order of the source: the guard on
    [frames.length === 0] (line 58), the grid shape (110-124), the cell
    size as [Math.max] over the spread of all widths and of all heights
    (135-136; the spread has a first element once the guard is passed),
    the sheet size (142-143), the canvas and its context (146-148), the
    loop (152-171), the blob and its URL (173-174), the result (176-182).
    The context draws on the canvas it belongs to: the bitmap the loop
    leaves is the one encoded. *)
Definition generateSpritesheet (env : Platform.Env)
    (frames : list SpriteFrame.t) (config : ProcessingConfig.t)
  : Completion SpriteSheetResult.t :=
  match frames with
  | [] => Throw (Error "No frames to process")
  | f0 :: rest =>
      let padding := ProcessingConfig.padding config in
      let layout := ProcessingConfig.layout config in
      let count := Z.of_nat (length frames) in
      let '(cols, rows) :=
        grid_shape layout (ProcessingConfig.columns config) count in
      let maxWidth := Math_max (frame_width f0) (map frame_width rest) in
      let maxHeight := Math_max (frame_height f0) (map frame_height rest) in
      let totalWidth := cols * maxWidth + (cols - 1) * padding in
      let totalHeight := rows * maxHeight + (rows - 1) * padding in
      canvas <- Platform.new_OffscreenCanvas env totalWidth totalHeight ;;
      match Platform.getContext env canvas with
      | None => Throw (Error "Could not get 2D context")
      | Some ctx =>
          drawn <- place_loop frames cols maxWidth maxHeight padding
                     (length frames) 0 ctx [] ;;
          blob <- Platform.convertToBlob env (fst drawn) ;;
          Return (SpriteSheetResult.mk blob
                    (Platform.createObjectURL env blob)
                    totalWidth totalHeight (snd drawn))
      end
  end.

(** ** The frame adapter (gif-processor.ts, lines 32-52) *)

(** A decoded step as the decoder hands it over ([ParsedFrame] of
    gifuct-js, the fields the adapter reads). *)
Module ParsedFrame.
Record t : Type := mk
  { patch : list Z;     (* a [Uint8ClampedArray] *)
    dims : Dims.t;
    delay : Z }.
End ParsedFrame.

(** Conversion of one number on its way into a [Uint8ClampedArray]. *)
Definition clamp_u8 (v : Z) : Z := Z.max 0 (Z.min 255 v).

(** [new Uint8ClampedArray(source)]: an element-wise copy. *)
Definition new_Uint8ClampedArray (source : list Z) : list Z :=
  map clamp_u8 source.

(** Conversion of a number to [unsigned long], for an integer. *)
Definition to_unsigned_long (v : Z) : Z := v mod 2 ^ 32.

(** [new ImageData(data, sw, sh)], the sizes being [unsigned long]: an
    [InvalidStateError] unless the array has a length that is a multiple
    of four and not 0; an [IndexSizeError] unless its pixels fill rows of
    [sw] and there are [sh] rows.  The image has the sizes as
    converted. *)
Definition new_ImageData (data : list Z) (sw sh : Z)
  : Completion ImageData.t :=
  let length := Z.of_nat (length data) in
  let sw := to_unsigned_long sw in
  let sh := to_unsigned_long sh in
  if (length =? 0) || negb (length mod 4 =? 0) then Throw InvalidStateError
  else
    let length := length / 4 in
    if (sw =? 0) || negb (length mod sw =? 0) then Throw IndexSizeError
    else
      let height := length / sw in
      if negb (height =? sh) then Throw IndexSizeError
      else Return (ImageData.mk data sw height).

(** The callback of [frames.map], lines 37-51. *)
Definition adapt_frame (frame : ParsedFrame.t) (index : nat)
  : Completion SpriteFrame.t :=
  imageData <- new_ImageData (new_Uint8ClampedArray (ParsedFrame.patch frame))
                 (Dims.width (ParsedFrame.dims frame))
                 (Dims.height (ParsedFrame.dims frame)) ;;
  Return (SpriteFrame.mk (Z.of_nat index) imageData
            (Dims.mk (Dims.width (ParsedFrame.dims frame))
                     (Dims.height (ParsedFrame.dims frame))
                     (Dims.top (ParsedFrame.dims frame))
                     (Dims.left (ParsedFrame.dims frame)))
            (ParsedFrame.delay frame)).

(** [Array.prototype.map] with a callback that may throw: elements are
    visited in order, from index [index] on. *)
Fixpoint map_from (index : nat) (frames : list ParsedFrame.t)
  : Completion (list SpriteFrame.t) :=
  match frames with
  | [] => Return []
  | frame :: more =>
      first <- adapt_frame frame index ;;
      others <- map_from (S index) more ;;
      Return (first :: others)
  end.

Section Adapter.

(** The file and the external decoder: [file.arrayBuffer()], [parseGIF]
    and [decompressFrames(gif, true)] in one step, which may throw. *)
Variable File : Type.
Variable decode : File -> Completion (list ParsedFrame.t).

Definition extractFrames (file : File) : Completion (list SpriteFrame.t) :=
  frames <- decode file ;;
  map_from 0 frames.

End Adapter.

(** * Specification-level notions *)

(** The placements and the bitmap the loop produces, by recursion on the
    frames still to be placed. *)
Section LoopResult.

Variables cols maxWidth maxHeight padding : Z.

Fixpoint placements_from (i : nat) (fs : list SpriteFrame.t)
  : list Placement.t :=
  match fs with
  | [] => []
  | f :: fs' =>
      placement_at cols maxWidth maxHeight padding i f
        :: placements_from (S i) fs'
  end.

Fixpoint draw_from (i : nat) (fs : list SpriteFrame.t)
    (ctx : Platform.Canvas) : Platform.Canvas :=
  match fs with
  | [] => ctx
  | f :: fs' =>
      let p := placement_at cols maxWidth maxHeight padding i f in
      draw_from (S i) fs'
        (Platform.putImageData ctx (SpriteFrame.imageData f)
           (Placement.x p) (Placement.y p))
  end.

End LoopResult.

(** The cell origin in the words of the specification: [col = i mod cols],
    [row = floor(i / cols)]. *)
Definition spec_cellX (cols cellWidth padding : Z) (i : nat) : Z :=
  (Z.of_nat i mod cols) * (cellWidth + padding).
Definition spec_cellY (cols cellHeight padding : Z) (i : nat) : Z :=
  (Z.of_nat i / cols) * (cellHeight + padding).

(** The engine's local values as functions of its inputs: [cols], [rows],
    [maxWidth] (the cell width) and [maxHeight] (the cell height). *)
Definition sheet_cols (frames : list SpriteFrame.t)
    (config : ProcessingConfig.t) : Z :=
  fst (grid_shape (ProcessingConfig.layout config)
         (ProcessingConfig.columns config) (Z.of_nat (length frames))).

Definition sheet_rows (frames : list SpriteFrame.t)
    (config : ProcessingConfig.t) : Z :=
  snd (grid_shape (ProcessingConfig.layout config)
         (ProcessingConfig.columns config) (Z.of_nat (length frames))).

Definition cellWidth (frames : list SpriteFrame.t) : Z :=
  match frames with
  | [] => 0
  | f0 :: rest => Math_max (frame_width f0) (map frame_width rest)
  end.

Definition cellHeight (frames : list SpriteFrame.t) : Z :=
  match frames with
  | [] => 0
  | f0 :: rest => Math_max (frame_height f0) (map frame_height rest)
  end.

(** Lines 142-143: the size of the sheet. *)
Definition totalWidth (frames : list SpriteFrame.t)
    (config : ProcessingConfig.t) : Z :=
  sheet_cols frames config * cellWidth frames
  + (sheet_cols frames config - 1) * ProcessingConfig.padding config.

Definition totalHeight (frames : list SpriteFrame.t)
    (config : ProcessingConfig.t) : Z :=
  sheet_rows frames config * cellHeight frames
  + (sheet_rows frames config - 1) * ProcessingConfig.padding config.

(** [k] is the ceiling of the square root of [n]. *)
Definition is_ceil_sqrt (n k : Z) : Prop :=
  0 <= k /\ (k - 1) * (k - 1) < n <= k * k.

(** [r] is the ceiling of the quotient [a / b], for [b] positive. *)
Definition is_ceil_quot (a b r : Z) : Prop :=
  (r - 1) * b < a <= r * b.

(** At least one column, when [columns] is given. *)
Definition columns_valid (columns : option Z) : Prop :=
  match columns with
  | Some c => 1 <= c
  | None => True
  end.

(** What the placement arithmetic needs of [columns]: not negative (a 0
    counts as not given). *)
Definition columns_not_negative (columns : option Z) : Prop :=
  match columns with
  | Some c => 0 <= c
  | None => True
  end.

(** The configuration invariants of the specification: a padding that is
    not negative, and at least one column when [columns] is given. *)
Definition config_valid (config : ProcessingConfig.t) : Prop :=
  0 <= ProcessingConfig.padding config
  /\ columns_valid (ProcessingConfig.columns config).

(** A frame with a proper size. *)
Definition frame_sized (f : SpriteFrame.t) : Prop :=
  0 < frame_width f /\ 0 < frame_height f.

(** The point [(px, py)] lies in the cell of size [cw] by [ch] whose
    top-left corner is the origin of placement [p]. *)
Definition in_cell (cw ch : Z) (p : Placement.t) (px py : Z) : Prop :=
  Placement.x p <= px < Placement.x p + cw
  /\ Placement.y p <= py < Placement.y p + ch.

(** The image a frame carries has the size its [dims] record states (as
    the adapter builds it). *)
Definition frame_consistent (f : SpriteFrame.t) : Prop :=
  ImageData.width (SpriteFrame.imageData f) = frame_width f
  /\ ImageData.height (SpriteFrame.imageData f) = frame_height f.

(** Rendering in another order: the body of the loop run at the indices
    of [order], one after the other. *)
Section RenderOrder.

Variable frames : list SpriteFrame.t.
Variables cols maxWidth maxHeight padding : Z.

Definition draw_step (ctx : Platform.Canvas) (i : nat) : Platform.Canvas :=
  match nth_error frames i with
  | Some f =>
      let p := placement_at cols maxWidth maxHeight padding i f in
      Platform.putImageData ctx (SpriteFrame.imageData f)
        (Placement.x p) (Placement.y p)
  | None => ctx
  end.

Definition draw_in_order (order : list nat) (ctx : Platform.Canvas)
  : Platform.Canvas :=
  fold_left draw_step order ctx.

(** The pixels frame [i] is drawn on. *)
Definition drawn_on (i : nat) (px py : Z) : bool :=
  match nth_error frames i with
  | Some f =>
      let p := placement_at cols maxWidth maxHeight padding i f in
      Platform.in_rect px py (Placement.x p) (Placement.y p)
        (ImageData.width (SpriteFrame.imageData f))
        (ImageData.height (SpriteFrame.imageData f))
  | None => false
  end.

End RenderOrder.

(** Two bitmaps of the same size with the same pixels. *)
Definition same_bitmap (c1 c2 : Platform.Canvas) : Prop :=
  Platform.cv_width c1 = Platform.cv_width c2
  /\ Platform.cv_height c1 = Platform.cv_height c2
  /\ forall px py, Platform.cv_pixel c1 px py = Platform.cv_pixel c2 px py.

(** The geometry of a result: what the atlas is made of. *)
Definition geometry (c : Completion SpriteSheetResult.t)
  : option (Z * Z * list Placement.t) :=
  match c with
  | Return r =>
      Some (SpriteSheetResult.width r, SpriteSheetResult.height r,
            SpriteSheetResult.frames r)
  | Throw _ => None
  end.



(** Sample data for the examples. *)
Definition sample_frame (w h d : Z) : SpriteFrame.t :=
  SpriteFrame.mk 0 (ImageData.mk (repeat 255 (Z.to_nat (4 * w * h))) w h)
    (Dims.mk w h 0 0) d.

Definition sample_env : Platform.Env :=
  Platform.mkEnv (fun _ _ => true) (fun _ _ => true) (fun _ _ => None)
    (fun _ => "blob:sheet"%string).

(** Four frames of sizes 8x8, 10x6, 6x10 and 10x10, on a grid of two
    columns with a padding of 2. *)
Definition four_frames : list SpriteFrame.t :=
  [sample_frame 8 8 10; sample_frame 10 6 20;
   sample_frame 6 10 30; sample_frame 10 10 40].

Definition grid_of_two : ProcessingConfig.t :=
  ProcessingConfig.mk grid 2 (Some 2).

(** Two decoded steps: a 2x1 patch at the origin shown for 100 ms and a
    1x1 patch at offset (1, 0) shown for 40 ms. *)
Definition two_steps : list ParsedFrame.t :=
  [ParsedFrame.mk [255; 0; 0; 255; 0; 255; 0; 255] (Dims.mk 2 1 0 0) 100;
   ParsedFrame.mk [0; 0; 255; 128] (Dims.mk 1 1 0 1) 40].

(** The result the engine builds when nothing fails: the bitmap, the
    placements, and the record of lines 176-182. *)
Definition sheet_bitmap (frames : list SpriteFrame.t)
    (config : ProcessingConfig.t) : Platform.Canvas :=
  draw_from (sheet_cols frames config) (cellWidth frames) (cellHeight frames)
    (ProcessingConfig.padding config) 0 frames
    (Platform.mkCanvas (totalWidth frames config) (totalHeight frames config)
       (fun _ _ => Platform.transparent)).

Definition sheet_placements (frames : list SpriteFrame.t)
    (config : ProcessingConfig.t) : list Placement.t :=
  placements_from (sheet_cols frames config) (cellWidth frames)
    (cellHeight frames) (ProcessingConfig.padding config) 0 frames.

Definition sheet_result (env : Platform.Env) (frames : list SpriteFrame.t)
    (config : ProcessingConfig.t) : SpriteSheetResult.t :=
  SpriteSheetResult.mk
    (Platform.mkBlob (sheet_bitmap frames config))
    (Platform.createObjectURL env (Platform.mkBlob (sheet_bitmap frames config)))
    (totalWidth frames config) (totalHeight frames config)
    (sheet_placements frames config).

(** What the engine reads of a frame: the image, the size and the delay
    (not [id], nor the offsets [top] and [left]). *)
Definition layout_view (f : SpriteFrame.t) : ImageData.t * Z * Z * Z :=
  (SpriteFrame.imageData f, frame_width f, frame_height f,
   SpriteFrame.delay f).

(** Two frames with the same image, size and delay that differ in [id]
    and in the offsets. *)
Definition relabelled_frames : list SpriteFrame.t :=
  map (fun f => SpriteFrame.mk 7 (SpriteFrame.imageData f)
                  (Dims.mk (frame_width f) (frame_height f) 3 4)
                  (SpriteFrame.delay f))
      four_frames.

(** The checks of [new ImageData] on a decoded step: the one on the
    bytes of the patch, and both. *)
Definition patch_bytes_ok (d : ParsedFrame.t) : bool :=
  let length := Z.of_nat (length (ParsedFrame.patch d)) in
  negb (length =? 0) && (length mod 4 =? 0).

Definition step_constructible (d : ParsedFrame.t) : bool :=
  let pixels := Z.of_nat (length (ParsedFrame.patch d)) / 4 in
  let sw := to_unsigned_long (Dims.width (ParsedFrame.dims d)) in
  let sh := to_unsigned_long (Dims.height (ParsedFrame.dims d)) in
  patch_bytes_ok d
  && negb (sw =? 0) && (pixels mod sw =? 0) && (pixels / sw =? sh).

(** The sizes of a step are within the range of [unsigned long] (as the
    16-bit sizes of a GIF are). *)
Definition step_in_range (d : ParsedFrame.t) : Prop :=
  0 <= Dims.width (ParsedFrame.dims d) < 2 ^ 32
  /\ 0 <= Dims.height (ParsedFrame.dims d) < 2 ^ 32.

(** The frame the adapter makes of a step at position [index], and of a
    list of steps from [index] on. *)
Definition canonical_frame (index : nat) (d : ParsedFrame.t) : SpriteFrame.t :=
  let sw := to_unsigned_long (Dims.width (ParsedFrame.dims d)) in
  SpriteFrame.mk (Z.of_nat index)
    (ImageData.mk (new_Uint8ClampedArray (ParsedFrame.patch d)) sw
       (Z.of_nat (length (ParsedFrame.patch d)) / 4 / sw))
    (Dims.mk (Dims.width (ParsedFrame.dims d)) (Dims.height (ParsedFrame.dims d))
       (Dims.top (ParsedFrame.dims d)) (Dims.left (ParsedFrame.dims d)))
    (ParsedFrame.delay d).

Fixpoint canonical_from (index : nat) (steps : list ParsedFrame.t)
  : list SpriteFrame.t :=
  match steps with
  | [] => []
  | d :: more => canonical_frame index d :: canonical_from (S index) more
  end.

(** What holds of every frame the adapter returns: a positive size, an
    image of that size, four bytes per pixel. *)
Definition frame_sound (f : SpriteFrame.t) : Prop :=
  frame_sized f /\ frame_consistent f
  /\ Z.of_nat (length (ImageData.data (SpriteFrame.imageData f)))
     = 4 * frame_width f * frame_height f.



(** * The application around the engine (App.tsx and the components) *)

(** ** JavaScript strings, as far as the application computes with them *)

(** [s.split(sep)] for a separator of one character: the pieces between
    the separators, at least one. *)
Fixpoint split (sep : ascii) (s : string) : list string :=
  match s with
  | EmptyString => [EmptyString]
  | String c rest =>
      match split sep rest with
      | [] => [String c EmptyString]
      | piece :: pieces =>
          if Ascii.eqb c sep then EmptyString :: piece :: pieces
          else String c piece :: pieces
      end
  end.

(** [a.join(sep)]. *)
Fixpoint join (sep : string) (pieces : list string) : string :=
  match pieces with
  | [] => EmptyString
  | [piece] => piece
  | piece :: more => (piece ++ sep ++ join sep more)%string
  end.

(** [s || d] on strings: the empty string is falsy. *)
Definition js_or_string (s d : string) : string :=
  match s with
  | EmptyString => d
  | _ => s
  end.

(** The character [sep] does not occur in [s]. *)
Fixpoint free_of (sep : ascii) (s : string) : bool :=
  match s with
  | EmptyString => true
  | String c rest => negb (Ascii.eqb c sep) && free_of sep rest
  end.

Module App.

(** A [File], as far as it is read: its name, its MIME type, its
    content. *)
Record File : Type := mkFile
  { name : string;
    type : string;
    bytes : list Z }.

(** The state of the component, lines 15-22. *)
Record State : Type := mkState
  { frames : list SpriteFrame.t;
    layout : LayoutMode;
    padding : Z;
    columns : Z;
    result : option SpriteSheetResult.t;
    isProcessing : bool;
    dragActive : bool;
    filename : string }.

Definition initial : State :=
  mkState [] horizontal 0 5 None false false "spritesheet".

(** What a handler lets out besides the state. *)
Inductive Output : Type :=
| ConsoleError (e : Exception)
| Alert (message : string).

(** Line 30: the configuration handed to the engine. *)
Definition config_of (st : State) : ProcessingConfig.t :=
  ProcessingConfig.mk (layout st) (padding st) (Some (columns st)).

(** Lines 25-37, run to its end on the state it was started in: nothing
    without frames; else the engine's result is stored, or its exception
    logged, and [isProcessing] is lowered. *)
Definition reprocess (env : Platform.Env) (st : State) : State * list Output :=
  match frames st with
  | [] => (st, [])
  | _ :: _ =>
      match generateSpritesheet env (frames st) (config_of st) with
      | Return r =>
          (mkState (frames st) (layout st) (padding st) (columns st)
             (Some r) false (dragActive st) (filename st), [])
      | Throw e =>
          (mkState (frames st) (layout st) (padding st) (columns st)
             (result st) false (dragActive st) (filename st),
           [ConsoleError e])
      end
  end.

(** Line 48: the file's name without its extension. *)
Definition safeName (file_name : string) : string :=
  js_or_string (join "." (removelast (split "." file_name))) "spritesheet".

(** Lines 39-57, for the outcome of the adapter on the file. *)
Definition handleFileSelect
    (decode : File -> Completion (list ParsedFrame.t))
    (file : File) (st : State) : State * list Output :=
  match extractFrames File decode file with
  | Return extractedFrames =>
      (mkState extractedFrames (layout st) (padding st) (columns st)
         None false false (safeName (name file)), [])
  | Throw err =>
      (mkState (frames st) (layout st) (padding st) (columns st)
         (result st) false false (filename st),
       [ConsoleError err;
        Alert "Failed to parse GIF. Please try another file."])
  end.

(** Lines 63 and 74, and line 86: the names of the downloads. *)
Definition png_name (st : State) : string :=
  (js_or_string (filename st) "spritesheet" ++ ".png")%string.

Definition json_name (st : State) : string :=
  (js_or_string (filename st) "spritesheet" ++ ".json")%string.

(** Line 171: [prev.filter((_, i) => i !== index)], the elements being
    visited from position [i] on. *)
Fixpoint filter_out_from (i index : nat) (prev : list SpriteFrame.t)
  : list SpriteFrame.t :=
  match prev with
  | [] => []
  | frame :: more =>
      if negb (i =? index)%nat then frame :: filter_out_from (S i) index more
      else filter_out_from (S i) index more
  end.

Definition onRemoveFrame (index : nat) (st : State) : State :=
  mkState (filter_out_from 0 index (frames st)) (layout st) (padding st)
    (columns st) (result st) (isProcessing st) (dragActive st) (filename st).

(** Sidebar.tsx, line 85: [Math.max(1, parseInt(e.target.value) || 1)],
    for what [parseInt] gave ([None] for [NaN]). *)
Definition columns_from_input (parsed : option Z) : Z :=
  Z.max 1 (js_or parsed 1).

(** What happens to the component: the handlers of App.tsx, of the
    sidebar and of the drop zone. *)
Inductive Event : Type :=
| FileSelected (file : File)          (* the file input, DropZone.tsx line 36 *)
| ZoneDrop (file : File)              (* DropZone.tsx lines 11-26 *)
| WindowDrop (file : File)            (* lines 111-116 and 123-128 *)
| DragEnter                           (* lines 95-99 *)
| DragLeave (inside : bool)           (* lines 104-110 *)
| FrameRemoved (index : nat)          (* lines 170-172 *)
| LayoutChanged (mode : LayoutMode)
| PaddingChanged (value : Z)          (* Sidebar.tsx line 102, the number
                                         parsed from the slider *)
| ColumnsChanged (parsed : option Z)  (* Sidebar.tsx line 85 *)
| FilenameChanged (text : string)
| Reprocessed.                        (* lines 25-37 *)

Definition setDragActive (b : bool) (st : State) : State :=
  mkState (frames st) (layout st) (padding st) (columns st) (result st)
    (isProcessing st) b (filename st).

Definition handle (env : Platform.Env)
    (decode : File -> Completion (list ParsedFrame.t))
    (ev : Event) (st : State) : State * list Output :=
  match ev with
  | FileSelected file => handleFileSelect decode file st
  | ZoneDrop file =>
      if String.eqb (type file) "image/gif"
      then handleFileSelect decode file st
      else (st, [Alert "Please upload a GIF file"])
  | WindowDrop file => handleFileSelect decode file (setDragActive false st)
  | DragEnter => (setDragActive true st, [])
  | DragLeave inside =>
      if inside then (st, []) else (setDragActive false st, [])
  | FrameRemoved index => (onRemoveFrame index st, [])
  | LayoutChanged mode =>
      (mkState (frames st) mode (padding st) (columns st) (result st)
         (isProcessing st) (dragActive st) (filename st), [])
  | PaddingChanged value =>
      (mkState (frames st) (layout st) value (columns st) (result st)
         (isProcessing st) (dragActive st) (filename st), [])
  | ColumnsChanged parsed =>
      (mkState (frames st) (layout st) (padding st)
         (columns_from_input parsed) (result st)
         (isProcessing st) (dragActive st) (filename st), [])
  | FilenameChanged text =>
      (mkState (frames st) (layout st) (padding st) (columns st) (result st)
         (isProcessing st) (dragActive st) text, [])
  | Reprocessed => reprocess env st
  end.

(** A sequence of events from a state on, with all that was let out. *)
Fixpoint run (env : Platform.Env)
    (decode : File -> Completion (list ParsedFrame.t))
    (events : list Event) (st : State) : State * list Output :=
  match events with
  | [] => (st, [])
  | ev :: more =>
      let '(st', out) := handle env decode ev st in
      let '(st'', out') := run env decode more st' in
      (st'', out ++ out')
  end.

End App.

(** ** The animation view (Preview.tsx) *)

Module Preview.

Inductive ViewMode : Type := sheet | animation.

(** Line 28: [(prev + 1) % frames.length], for a list with a frame. *)
Definition next_frameIndex (prev len : nat) : nat := ((prev + 1) mod len)%nat.

(** Lines 20-25: the timeout the animation effect sets, if it sets one:
    none when paused, outside the animation view or without frames; else
    [frames[frameIndex].delay || 100]. *)
Definition currentDelay (isPlaying : bool) (mode : ViewMode)
    (frames : list SpriteFrame.t) (frameIndex : nat)
  : Completion (option Z) :=
  match isPlaying, mode, frames with
  | true, animation, _ :: _ =>
      match nth_error frames frameIndex with
      | Some frame => Return (Some (js_or (Some (SpriteFrame.delay frame)) 100))
      | None => Throw TypeError
      end
  | _, _, _ => Return None
  end.

(** Lines 83-93: the frame the animation view renders, if it renders
    one: none outside the animation view or without frames; else
    [frames[frameIndex]], of which [imageData] is read. *)
Definition shown_frame (mode : ViewMode)
    (frames : list SpriteFrame.t) (frameIndex : nat)
  : Completion (option SpriteFrame.t) :=
  match mode, frames with
  | animation, _ :: _ =>
      match nth_error frames frameIndex with
      | Some frame => Return (Some frame)
      | None => Throw TypeError
      end
  | _, _ => Return None
  end.

(** The index after [ticks] timeouts, from frame 0 on. *)
Fixpoint playback (len ticks : nat) : nat :=
  match ticks with
  | O => O
  | S t => next_frameIndex (playback len t) len
  end.

End Preview.

(** A file named "walk.cycle.gif" whose decoding gives [two_steps]. *)
Definition walk_file : App.File :=
  App.mkFile "walk.cycle.gif" "image/gif" [71; 73; 70].

(** A decoder whose steps have sizes within the range of
    [unsigned long]. *)
Definition decoder_in_range {File : Type}
    (decode : File -> Completion (list ParsedFrame.t)) : Prop :=
  forall file steps, decode file = Return steps -> Forall step_in_range steps.

(** What every state of the application satisfies. *)
Definition app_invariant (st : App.State) : Prop :=
  1 <= App.columns st /\ Forall frame_sound (App.frames st).

(** A state with one frame and a sheet made of it. *)
Definition one_frame_state : App.State :=
  App.mkState [sample_frame 8 8 10] grid 2 5
    (Some (sheet_result sample_env [sample_frame 8 8 10]
             (ProcessingConfig.mk grid 2 (Some 5))))
    false false "walk".

(** A session: a file is selected, a negative number of columns typed,
    the grid mode chosen, the second frame removed. *)
Definition sample_session : list App.Event :=
  [App.FileSelected walk_file; App.ColumnsChanged (Some (-3));
   App.LayoutChanged grid; App.FrameRemoved 1].

(** * Properties *)

(** ** Arithmetic *)

Lemma Math_max_ge_first (xs : list Z) : forall x, x <= Math_max x xs.
Proof.
  unfold Math_max. induction xs as [|a xs IH]; intros x; simpl.
  - lia.
  - specialize (IH (Z.max x a)). lia.
Qed.

Lemma Math_max_cons (x a : Z) (xs : list Z) :
  Math_max x (a :: xs) = Math_max (Z.max x a) xs.
Proof. reflexivity. Qed.

Lemma Math_max_upper (xs : list Z) :
  forall x v, In v (x :: xs) -> v <= Math_max x xs.
Proof.
  induction xs as [|a xs IH]; intros x v Hin.
  - destruct Hin as [<-|[]]. apply Math_max_ge_first.
  - rewrite Math_max_cons.
    pose proof (Math_max_ge_first xs (Z.max x a)) as Hge.
    destruct Hin as [<-|[<-|Hin]]; try lia.
    apply IH. right. exact Hin.
Qed.

Lemma Math_max_attained (xs : list Z) :
  forall x, In (Math_max x xs) (x :: xs).
Proof.
  induction xs as [|a xs IH]; intros x.
  - left. reflexivity.
  - rewrite Math_max_cons.
    destruct (IH (Z.max x a)) as [E|Hin].
    + rewrite <- E.
      destruct (Z.max_spec x a) as [[_ ->]|[_ ->]]; simpl; auto.
    + right. right. exact Hin.
Qed.

Lemma Math_ceil_sqrt_spec (n : Z) :
  1 <= n -> is_ceil_sqrt n (Math_ceil_sqrt n).
Proof.
  intros Hn. unfold is_ceil_sqrt, Math_ceil_sqrt.
  pose proof (Z.sqrt_spec n ltac:(lia)) as [Hlo Hhi].
  pose proof (Z.sqrt_nonneg n) as Hs.
  destruct (Z.eqb_spec (Z.sqrt n * Z.sqrt n) n) as [E|E]; nia.
Qed.

Lemma Math_ceil_sqrt_pos (n : Z) : 1 <= n -> 1 <= Math_ceil_sqrt n.
Proof.
  intros Hn. destruct (Math_ceil_sqrt_spec n Hn) as [H0 [_ H2]]. nia.
Qed.

Lemma Math_ceil_div_spec (a b : Z) :
  0 < b -> is_ceil_quot a b (Math_ceil_div a b).
Proof.
  intros Hb. unfold is_ceil_quot, Math_ceil_div.
  pose proof (Z.div_mod (- a) b ltac:(lia)) as Hdm.
  pose proof (Z.mod_pos_bound (- a) b Hb) as Hm.
  nia.
Qed.

(** In every mode the number of columns is positive for a valid
    [columns] and at least one frame. *)
Lemma grid_shape_cols_pos (layout : LayoutMode) (columns : option Z)
    (count : Z) :
  1 <= count ->
  columns_not_negative columns ->
  0 < fst (grid_shape layout columns count).
Proof.
  intros Hc Hv. pose proof (Math_ceil_sqrt_pos count Hc).
  destruct layout; simpl; try lia.
  destruct columns as [c|]; simpl in *; [|lia].
  destruct (Z.eqb_spec c 0); lia.
Qed.

(** It is never 0 when there is a frame, whatever the configuration. *)
Lemma grid_shape_cols_nonzero (layout : LayoutMode) (columns : option Z)
    (count : Z) :
  1 <= count -> fst (grid_shape layout columns count) <> 0.
Proof.
  intros Hc. pose proof (Math_ceil_sqrt_pos count Hc).
  destruct layout; simpl; try lia.
  destruct columns as [c|]; simpl; [|lia].
  destruct (Z.eqb_spec c 0); lia.
Qed.

(** ** The placement loop *)

Lemma skipn_nth_error_cons {A : Type} (l : list A) :
  forall i a, nth_error l i = Some a -> skipn i l = a :: skipn (S i) l.
Proof.
  induction l as [|b l IH]; intros [|i] a H; simpl in *; try discriminate.
  - now inversion H.
  - now apply IH.
Qed.

Section LoopFacts.

Variable frames : list SpriteFrame.t.
Variables cols maxWidth maxHeight padding : Z.

Let place := place_loop frames cols maxWidth maxHeight padding.
Let placed := placements_from cols maxWidth maxHeight padding.
Let drawn := draw_from cols maxWidth maxHeight padding.

(** The loop never reads beyond the array, and what it returns is the
    recursive description above. *)
Lemma place_loop_spec (n : nat) :
  forall i ctx acc,
    (i + n)%nat = length frames ->
    place n i ctx acc
    = Return (drawn i (skipn i frames) ctx, acc ++ placed i (skipn i frames)).
Proof.
  subst place placed drawn.
  induction n as [|n IH]; intros i ctx acc Hlen; simpl.
  - rewrite skipn_all2 by lia. simpl. now rewrite app_nil_r.
  - destruct (nth_error frames i) as [f|] eqn:Hf.
    + rewrite (skipn_nth_error_cons _ _ _ Hf). simpl.
      rewrite IH by lia. now rewrite <- app_assoc.
    + apply nth_error_None in Hf. lia.
Qed.

Lemma placements_from_length (fs : list SpriteFrame.t) :
  forall i, length (placed i fs) = length fs.
Proof.
  subst placed. induction fs as [|f fs IH]; intros i; simpl; auto.
Qed.

Lemma placements_from_nth (fs : list SpriteFrame.t) :
  forall i k,
    nth_error (placed i fs) k
    = option_map (placement_at cols maxWidth maxHeight padding (i + k))
        (nth_error fs k).
Proof.
  subst placed. induction fs as [|f fs IH]; intros i [|k]; simpl; auto.
  - now rewrite Nat.add_0_r.
  - rewrite IH. now rewrite Nat.add_succ_r.
Qed.

Lemma draw_from_size (fs : list SpriteFrame.t) :
  forall i ctx,
    Platform.cv_width (drawn i fs ctx) = Platform.cv_width ctx
    /\ Platform.cv_height (drawn i fs ctx) = Platform.cv_height ctx.
Proof.
  subst drawn. induction fs as [|f fs IH]; intros i ctx; simpl; auto.
  rewrite !(proj1 (IH _ _)), !(proj2 (IH _ _)). simpl. auto.
Qed.

End LoopFacts.

(** ** What the engine returns *)

Lemma bind_Return_inv {A B : Type} (c : Completion A)
    (k : A -> Completion B) (b : B) :
  bind c k = Return b -> exists a, c = Return a /\ k a = Return b.
Proof.
  destruct c as [a|e]; simpl; intros H; [eauto | discriminate].
Qed.

(** A returned result is determined by the inputs: the sheet size, the
    placements and the bitmap are those of the recursive description. *)
Lemma generateSpritesheet_inv (env : Platform.Env)
    (frames : list SpriteFrame.t) (config : ProcessingConfig.t)
    (res : SpriteSheetResult.t) :
  generateSpritesheet env frames config = Return res ->
  let cols := sheet_cols frames config in
  let rows := sheet_rows frames config in
  let cw := cellWidth frames in
  let ch := cellHeight frames in
  let pad := ProcessingConfig.padding config in
  frames <> []
  /\ SpriteSheetResult.width res = cols * cw + (cols - 1) * pad
  /\ SpriteSheetResult.height res = rows * ch + (rows - 1) * pad
  /\ SpriteSheetResult.frames res = placements_from cols cw ch pad 0 frames
  /\ 0 < SpriteSheetResult.width res
  /\ 0 < SpriteSheetResult.height res
  /\ Platform.blob_bitmap (SpriteSheetResult.blob res)
     = draw_from cols cw ch pad 0 frames
         (Platform.mkCanvas (SpriteSheetResult.width res)
            (SpriteSheetResult.height res) (fun _ _ => Platform.transparent)).
Proof.
  unfold generateSpritesheet, sheet_cols, sheet_rows.
  destruct frames as [|f0 rest]; [discriminate|].
  cbn [cellWidth cellHeight].
  destruct (grid_shape _ _ _) as [cols rows]. cbn [fst snd].
  set (cw := Math_max (frame_width f0) (map frame_width rest)).
  set (ch := Math_max (frame_height f0) (map frame_height rest)).
  set (pad := ProcessingConfig.padding config).
  intros H.
  apply bind_Return_inv in H as [canvas [Hcanvas H]].
  unfold Platform.new_OffscreenCanvas in Hcanvas.
  destruct (_ || _) eqn:Hneg in Hcanvas; [discriminate|].
  destruct (Platform.canvas_size_in_range _ _ _) in Hcanvas; [|discriminate].
  inversion Hcanvas; subst canvas; clear Hcanvas.
  unfold Platform.getContext in H.
  destruct (Platform.context2d_available _ _ _); [|discriminate].
  rewrite place_loop_spec in H by (simpl; lia).
  cbn [bind fst snd skipn app] in H.
  apply bind_Return_inv in H as [blob [Hblob H]].
  unfold Platform.convertToBlob in Hblob.
  destruct (_ || _) eqn:Hzero in Hblob; [discriminate|].
  destruct (Platform.encoding_failure _ _ _) in Hblob; [discriminate|].
  inversion Hblob; subst blob; clear Hblob.
  inversion H; subst res; clear H. cbn.
  apply orb_false_elim in Hneg as [Hw Hh].
  apply orb_false_elim in Hzero as [Hw0 Hh0].
  rewrite (proj1 (draw_from_size _ _ _ _ _ _ _)) in Hw0.
  rewrite (proj2 (draw_from_size _ _ _ _ _ _ _)) in Hh0.
  cbn in Hw0, Hh0.
  repeat split; try discriminate; try reflexivity; lia.
Qed.

Lemma cellWidth_is_max (frames : list SpriteFrame.t) :
  frames <> [] ->
  (forall f, In f frames -> frame_width f <= cellWidth frames)
  /\ (exists f, In f frames /\ frame_width f = cellWidth frames).
Proof.
  destruct frames as [|f0 rest]; [congruence|]. intros _. simpl. split.
  - intros f Hin. apply Math_max_upper.
    change (In (frame_width f) (map frame_width (f0 :: rest))).
    now apply in_map.
  - pose proof (Math_max_attained (map frame_width rest) (frame_width f0))
      as Hin.
    change (In (Math_max (frame_width f0) (map frame_width rest))
              (map frame_width (f0 :: rest))) in Hin.
    apply in_map_iff in Hin as [f [E Hf]]. exists f. simpl in Hf. auto.
Qed.

Lemma cellHeight_is_max (frames : list SpriteFrame.t) :
  frames <> [] ->
  (forall f, In f frames -> frame_height f <= cellHeight frames)
  /\ (exists f, In f frames /\ frame_height f = cellHeight frames).
Proof.
  destruct frames as [|f0 rest]; [congruence|]. intros _. simpl. split.
  - intros f Hin. apply Math_max_upper.
    change (In (frame_height f) (map frame_height (f0 :: rest))).
    now apply in_map.
  - pose proof (Math_max_attained (map frame_height rest) (frame_height f0))
      as Hin.
    change (In (Math_max (frame_height f0) (map frame_height rest))
              (map frame_height (f0 :: rest))) in Hin.
    apply in_map_iff in Hin as [f [E Hf]]. exists f. simpl in Hf. auto.
Qed.

Lemma length_pos_of_nonempty {A : Type} (l : list A) :
  l <> [] -> 1 <= Z.of_nat (length l).
Proof. destruct l; [congruence | simpl length; lia]. Qed.

Lemma sheet_cols_pos (frames : list SpriteFrame.t)
    (config : ProcessingConfig.t) :
  frames <> [] ->
  columns_not_negative (ProcessingConfig.columns config) ->
  0 < sheet_cols frames config.
Proof.
  intros Hne Hv. apply grid_shape_cols_pos; auto.
  now apply length_pos_of_nonempty.
Qed.

Lemma sheet_rows_pos (frames : list SpriteFrame.t)
    (config : ProcessingConfig.t) :
  frames <> [] ->
  columns_not_negative (ProcessingConfig.columns config) ->
  0 < sheet_rows frames config.
Proof.
  intros Hne Hv. pose proof (sheet_cols_pos frames config Hne Hv) as Hc.
  pose proof (length_pos_of_nonempty frames Hne) as Hn.
  unfold sheet_rows, sheet_cols in *.
  destruct (ProcessingConfig.layout config); simpl in *; try lia.
  pose proof (Math_ceil_div_spec (Z.of_nat (length frames)) _ Hc) as Hq.
  unfold is_ceil_quot in Hq. nia.
Qed.

(** ** The worked examples of the specification *)

Example five_frames_in_a_row :
  geometry (generateSpritesheet sample_env
              (map (sample_frame 10 10) [1; 2; 3; 4; 5])
              (ProcessingConfig.mk horizontal 0 (Some 5)))
  = Some (50, 10,
          [Placement.mk 0 0 10 10 1; Placement.mk 10 0 10 10 2;
           Placement.mk 20 0 10 10 3; Placement.mk 30 0 10 10 4;
           Placement.mk 40 0 10 10 5]).
Proof. reflexivity. Qed.

Example four_frames_on_a_grid :
  geometry (generateSpritesheet sample_env four_frames grid_of_two)
  = Some (22, 22,
          [Placement.mk 0 0 8 8 10; Placement.mk 12 0 10 6 20;
           Placement.mk 0 12 6 10 30; Placement.mk 12 12 10 10 40]).
Proof. reflexivity. Qed.

Example no_frames :
  generateSpritesheet sample_env [] grid_of_two
  = Throw (Error "No frames to process").
Proof. reflexivity. Qed.

Example three_frames_without_columns :
  grid_shape grid None (Z.of_nat (length (firstn 3 four_frames))) = (2, 2)
  /\ option_map (fun g => length (snd g))
       (geometry (generateSpritesheet sample_env (firstn 3 four_frames)
                    (ProcessingConfig.mk grid 2 None)))
     = Some 3%nat.
Proof. split; reflexivity. Qed.

(** ** The size of the sheet *)

(** C1: for a non-empty frame sequence the returned sheet is
    [cols*cellWidth + (cols-1)*padding] wide and
    [rows*cellHeight + (rows-1)*padding] high, where the cell size is the
    largest frame width and the largest frame height; the padding is put
    between cells only (the last column ends at the right edge, the last
    row at the bottom edge), and a single column or a single row has no
    padding at all. *)
Theorem canvas_dimensions (env : Platform.Env)
    (frames : list SpriteFrame.t) (config : ProcessingConfig.t)
    (res : SpriteSheetResult.t) :
  generateSpritesheet env frames config = Return res ->
  let cols := sheet_cols frames config in
  let rows := sheet_rows frames config in
  let pad := ProcessingConfig.padding config in
  (SpriteSheetResult.width res
     = cols * cellWidth frames + (cols - 1) * pad
   /\ SpriteSheetResult.height res
     = rows * cellHeight frames + (rows - 1) * pad)
  /\ ((forall f, In f frames -> frame_width f <= cellWidth frames)
      /\ (exists f, In f frames /\ frame_width f = cellWidth frames))
  /\ ((forall f, In f frames -> frame_height f <= cellHeight frames)
      /\ (exists f, In f frames /\ frame_height f = cellHeight frames))
  /\ ((cols - 1) * (cellWidth frames + pad) + cellWidth frames
        = SpriteSheetResult.width res
      /\ (rows - 1) * (cellHeight frames + pad) + cellHeight frames
        = SpriteSheetResult.height res)
  /\ (cols = 1 -> SpriteSheetResult.width res = cellWidth frames)
  /\ (rows = 1 -> SpriteSheetResult.height res = cellHeight frames).
Proof.
  intros H cols rows pad.
  destruct (generateSpritesheet_inv _ _ _ _ H)
    as (Hne & Hw & Hh & _).
  fold cols rows pad in Hw, Hh.
  split; [split; assumption|].
  split; [now apply cellWidth_is_max|].
  split; [now apply cellHeight_is_max|].
  split; [split; lia|].
  split; intros E; rewrite E in *; lia.
Qed.

Lemma canvas_dimensions_witness :
  exists res,
    generateSpritesheet sample_env four_frames grid_of_two = Return res
    /\ SpriteSheetResult.width res = 22
    /\ SpriteSheetResult.height res = 22.
Proof.
  eexists. split; [reflexivity|].
  destruct (canvas_dimensions sample_env four_frames grid_of_two _ eq_refl)
    as [[Hw Hh] _].
  rewrite Hw, Hh. split; reflexivity.
Defined.

Lemma columns_valid_not_negative (columns : option Z) :
  columns_valid columns -> columns_not_negative columns.
Proof. destruct columns; simpl; [lia | auto]. Qed.

(** ** Placements *)

(** For a positive number of columns the loop's [i % cols] and
    [Math.floor(i / cols)] are the column and row of the specification. *)
Lemma placement_at_spec (cols cw ch pad : Z) (i : nat) (f : SpriteFrame.t) :
  0 < cols ->
  placement_at cols cw ch pad i f
  = Placement.mk (spec_cellX cols cw pad i) (spec_cellY cols ch pad i)
      (frame_width f) (frame_height f) (SpriteFrame.delay f).
Proof.
  intros Hc. unfold placement_at, spec_cellX, spec_cellY.
  rewrite Z.rem_mod_nonneg by lia. reflexivity.
Qed.

(** C2: for a valid configuration the engine emits one placement per
    frame, in input order; the placement of frame [i] has the origin of
    cell [i], the frame's own width and height (not the cell's) and the
    frame's duration. *)
Theorem one_placement_per_frame (env : Platform.Env)
    (frames : list SpriteFrame.t) (config : ProcessingConfig.t)
    (res : SpriteSheetResult.t) :
  frames <> [] ->
  config_valid config ->
  generateSpritesheet env frames config = Return res ->
  let cols := sheet_cols frames config in
  let pad := ProcessingConfig.padding config in
  length (SpriteSheetResult.frames res) = length frames
  /\ forall i f,
      nth_error frames i = Some f ->
      nth_error (SpriteSheetResult.frames res) i
      = Some (Placement.mk
                (spec_cellX cols (cellWidth frames) pad i)
                (spec_cellY cols (cellHeight frames) pad i)
                (Dims.width (SpriteFrame.dims f))
                (Dims.height (SpriteFrame.dims f))
                (SpriteFrame.delay f)).
Proof.
  intros Hne Hvalid H cols pad.
  destruct (generateSpritesheet_inv _ _ _ _ H) as (_ & _ & _ & Hfs & _).
  fold cols pad in Hfs. rewrite Hfs. split.
  - apply placements_from_length.
  - intros i f Hf. rewrite placements_from_nth, Hf. simpl. f_equal.
    apply placement_at_spec. apply sheet_cols_pos; auto.
    apply columns_valid_not_negative, Hvalid.
Qed.

Lemma one_placement_per_frame_witness :
  exists res,
    generateSpritesheet sample_env four_frames grid_of_two = Return res
    /\ length (SpriteSheetResult.frames res) = 4%nat
    /\ nth_error (SpriteSheetResult.frames res) 1
       = Some (Placement.mk 12 0 10 6 20)
    /\ nth_error (SpriteSheetResult.frames res) 2
       = Some (Placement.mk 0 12 6 10 30).
Proof.
  assert (Hne : four_frames <> []) by discriminate.
  assert (Hvalid : config_valid grid_of_two) by (split; simpl; lia).
  eexists. split; [reflexivity|].
  destruct (one_placement_per_frame sample_env four_frames grid_of_two _
              Hne Hvalid eq_refl) as [Hlen Hnth].
  split; [exact Hlen|].
  split; [exact (Hnth 1%nat _ eq_refl) | exact (Hnth 2%nat _ eq_refl)].
Defined.

(** C4: the frame at position [i] is placed in column [i mod cols] and row
    [floor(i / cols)], its cell origin being
    [x = col*(cellWidth+padding)], [y = row*(cellHeight+padding)]. *)
Theorem placement_coordinates (env : Platform.Env)
    (frames : list SpriteFrame.t) (config : ProcessingConfig.t)
    (res : SpriteSheetResult.t) :
  generateSpritesheet env frames config = Return res ->
  columns_not_negative (ProcessingConfig.columns config) ->
  forall (i : nat) (p : Placement.t),
    nth_error (SpriteSheetResult.frames res) i = Some p ->
    let cols := sheet_cols frames config in
    let pad := ProcessingConfig.padding config in
    let col := Z.of_nat i mod cols in
    let row := Z.of_nat i / cols in
    (0 <= col < cols /\ 0 <= row)
    /\ Placement.x p = col * (cellWidth frames + pad)
    /\ Placement.y p = row * (cellHeight frames + pad).
Proof.
  intros H Hcol i p Hp cols pad col row.
  destruct (generateSpritesheet_inv _ _ _ _ H) as (Hne & _ & _ & Hfs & _).
  pose proof (sheet_cols_pos frames config Hne Hcol) as Hpos.
  fold cols in Hpos, Hfs. fold pad in Hfs.
  rewrite Hfs, placements_from_nth in Hp.
  destruct (nth_error frames i) as [f|]; [|discriminate].
  simpl in Hp. rewrite placement_at_spec in Hp by assumption.
  inversion Hp; subst p; clear Hp. simpl.
  split; [|split; reflexivity].
  subst col row. split.
  - apply Z.mod_pos_bound. lia.
  - apply Z.div_pos; lia.
Qed.

Lemma placement_coordinates_witness :
  exists res p,
    generateSpritesheet sample_env four_frames grid_of_two = Return res
    /\ nth_error (SpriteSheetResult.frames res) 3 = Some p
    /\ Placement.x p = 12 /\ Placement.y p = 12.
Proof.
  assert (Hcol : columns_not_negative (ProcessingConfig.columns grid_of_two))
    by (simpl; lia).
  eexists. eexists. split; [reflexivity|]. split; [reflexivity|].
  destruct (placement_coordinates sample_env four_frames grid_of_two _
              eq_refl Hcol 3%nat _ eq_refl) as (_ & Hx & Hy).
  rewrite Hx, Hy. split; reflexivity.
Defined.

(** ** The shape of the grid *)

(** C3: with at least one frame, [horizontal] gives [count] columns and
    one row, [vertical] one column and [count] rows, and [grid] gives the
    configured number of columns when there is one, else the ceiling of
    the square root of [count], with as many rows as the ceiling of
    [count / cols]. *)
Theorem grid_shape_by_mode (frames : list SpriteFrame.t)
    (columns : option Z) :
  frames <> [] ->
  columns_valid columns ->
  let count := Z.of_nat (length frames) in
  grid_shape horizontal columns count = (count, 1)
  /\ grid_shape vertical columns count = (1, count)
  /\ (forall c, columns = Some c ->
       fst (grid_shape grid columns count) = c)
  /\ (columns = None ->
      is_ceil_sqrt count (fst (grid_shape grid columns count)))
  /\ is_ceil_quot count (fst (grid_shape grid columns count))
       (snd (grid_shape grid columns count)).
Proof.
  intros Hne Hv count.
  pose proof (length_pos_of_nonempty frames Hne) as Hcount. fold count in Hcount.
  split; [reflexivity|]. split; [reflexivity|].
  split; [|split].
  - intros c ->. simpl in *. destruct (Z.eqb_spec c 0); [lia | reflexivity].
  - intros ->. simpl. now apply Math_ceil_sqrt_spec.
  - cbn [grid_shape fst snd]. apply Math_ceil_div_spec.
    apply (grid_shape_cols_pos grid columns count Hcount).
    now apply columns_valid_not_negative.
Qed.

Lemma grid_shape_by_mode_witness :
  is_ceil_sqrt 3 2 /\ is_ceil_quot 3 2 2
  /\ fst (grid_shape grid (Some 2) (Z.of_nat (length four_frames))) = 2
  /\ is_ceil_quot 4 2 2.
Proof.
  assert (H3 : firstn 3 four_frames <> []) by discriminate.
  assert (H4 : four_frames <> []) by discriminate.
  assert (Hnone : columns_valid None) by exact I.
  assert (Htwo : columns_valid (Some 2)) by (simpl; lia).
  destruct (grid_shape_by_mode (firstn 3 four_frames) None H3 Hnone)
    as (_ & _ & _ & Hsqrt & Hquot).
  destruct (grid_shape_by_mode four_frames (Some 2) H4 Htwo)
    as (_ & _ & Hcols & _ & Hquot4).
  split; [exact (Hsqrt eq_refl)|].
  split; [exact Hquot|].
  split; [exact (Hcols 2 eq_refl) | exact Hquot4].
Defined.

(** C7, as the engine has it: one frame gives a 1x1 grid in the
    [horizontal] and [vertical] modes whatever [columns] is, and in the
    [grid] mode when [columns] is not given (or is 0 or 1); a [grid] of
    [c >= 1] configured columns has [c] columns and one row. *)
Theorem single_frame_shape (f : SpriteFrame.t) (layout : LayoutMode)
    (columns : option Z) :
  let count := Z.of_nat (length [f]) in
  (layout <> grid -> grid_shape layout columns count = (1, 1))
  /\ (columns = None \/ columns = Some 0 \/ columns = Some 1 ->
      grid_shape layout columns count = (1, 1))
  /\ (forall c, columns = Some c -> 1 <= c ->
       grid_shape grid columns count = (c, 1)).
Proof.
  intros count. subst count. change (Z.of_nat (length [f])) with 1.
  split; [|split].
  - destruct layout; intros H; try reflexivity. congruence.
  - intros [->|[->| ->]]; destruct layout; reflexivity.
  - intros c -> Hc. unfold grid_shape, js_or.
    destruct (Z.eqb_spec c 0); [lia|]. f_equal.
    pose proof (Math_ceil_div_spec 1 c ltac:(lia)) as Hq.
    unfold is_ceil_quot in Hq. nia.
Qed.

(** C7 as stated fails: one frame on a [grid] of five configured columns
    is laid out on five columns, and the sheet is five cells wide. *)
Lemma single_frame_not_always_1x1 :
  grid_shape grid (Some 5) (Z.of_nat (length [sample_frame 8 8 10])) = (5, 1)
  /\ grid_shape grid (Some 5) (Z.of_nat (length [sample_frame 8 8 10]))
     <> (1, 1)
  /\ geometry (generateSpritesheet sample_env [sample_frame 8 8 10]
                 (ProcessingConfig.mk grid 2 (Some 5)))
     = Some (48, 8, [Placement.mk 0 0 8 8 10]).
Proof.
  split; [reflexivity|]. split; [discriminate | reflexivity].
Qed.

(** ** Failure on no frames *)

(** C5: the engine throws its "No frames to process" error exactly when
    there is no frame; a throw carries no result. *)
Theorem empty_input_error (env : Platform.Env)
    (frames : list SpriteFrame.t) (config : ProcessingConfig.t) :
  (generateSpritesheet env frames config
     = Throw (Error "No frames to process")
   <-> frames = [])
  /\ (frames = [] ->
      forall res, generateSpritesheet env frames config <> Return res).
Proof.
  split; [split|].
  - destruct frames as [|f0 rest]; [reflexivity|]. intros H. exfalso.
    unfold generateSpritesheet in H.
    destruct (grid_shape _ _ _) as [cols rows].
    unfold Platform.new_OffscreenCanvas in H.
    destruct (_ || _) in H; [discriminate|].
    destruct (Platform.canvas_size_in_range _ _ _) in H; [|discriminate].
    cbn [bind] in H.
    destruct (Platform.getContext _ _); [|discriminate].
    rewrite place_loop_spec in H by (simpl; lia). cbn [bind] in H.
    unfold Platform.convertToBlob in H.
    destruct (_ || _) in H; [discriminate|].
    destruct (Platform.encoding_failure _ _ _) in H; discriminate.
  - intros ->. reflexivity.
  - intros -> res. discriminate.
Qed.

(** ** [columns] outside the grid mode *)

(** C8: in the [horizontal] mode, and likewise in the [vertical] mode,
    two configurations that differ in [columns] only give the same
    outcome: the same sheet, or the same failure. *)
Theorem columns_ignored_outside_grid (env : Platform.Env)
    (frames : list SpriteFrame.t) (pad : Z) (c1 c2 : option Z) :
  (generateSpritesheet env frames (ProcessingConfig.mk horizontal pad c1)
   = generateSpritesheet env frames (ProcessingConfig.mk horizontal pad c2))
  /\ (generateSpritesheet env frames (ProcessingConfig.mk vertical pad c1)
      = generateSpritesheet env frames (ProcessingConfig.mk vertical pad c2)).
Proof.
  split; destruct frames as [|f0 rest]; reflexivity.
Qed.

(** ** Cells do not overlap *)

(** The column and row the loop computes identify the index, for any
    number of columns other than 0 (also a negative one, where [%] takes
    the sign of the index and the rows count downwards). *)
Lemma rem_div_injective (c a b : Z) :
  c <> 0 -> 0 <= a -> 0 <= b ->
  Z.rem a c = Z.rem b c -> a / c = b / c -> a = b.
Proof.
  intros Hc Ha Hb Hrem Hdiv.
  destruct (Z.lt_total c 0) as [Hneg|[->|Hpos]]; [|congruence|].
  - replace c with (- - c) in Hrem by lia.
    rewrite !(Z.rem_opp_r _ (- c)) in Hrem by lia.
    rewrite !Z.rem_mod_nonneg in Hrem by lia.
    pose proof (Z.div_mod a c Hc) as Ea.
    pose proof (Z.div_mod b c Hc) as Eb.
    pose proof (Z.mod_neg_bound a c Hneg) as Ma.
    pose proof (Z.mod_neg_bound b c Hneg) as Mb.
    pose proof (Z.div_mod a (- c) ltac:(lia)) as Ea'.
    pose proof (Z.div_mod b (- c) ltac:(lia)) as Eb'.
    pose proof (Z.mod_pos_bound a (- c) ltac:(lia)) as Ma'.
    pose proof (Z.mod_pos_bound b (- c) ltac:(lia)) as Mb'.
    rewrite <- Hdiv in Eb. rewrite <- Hrem in Eb', Mb'.
    set (r := a mod - c) in *. set (q := a / c) in *.
    assert (Ta : a / c + a / - c = 0 \/ a / c + a / - c = -1) by (fold q; nia).
    assert (Tb : q + b / - c = 0 \/ q + b / - c = -1) by nia.
    fold q in Ta. nia.
  - rewrite !Z.rem_mod_nonneg in Hrem by lia.
    pose proof (Z.div_mod a c Hc) as Ea.
    pose proof (Z.div_mod b c Hc) as Eb.
    rewrite Hrem, Hdiv in Ea. lia.
Qed.

(** The cells of two different indices have no point in common. *)
Lemma placement_cells_apart (cols cw ch pad : Z) (i j : nat)
    (fi fj : SpriteFrame.t) :
  cols <> 0 -> 0 <= pad -> i <> j ->
  forall px py,
    ~ (in_cell cw ch (placement_at cols cw ch pad i fi) px py
       /\ in_cell cw ch (placement_at cols cw ch pad j fj) px py).
Proof.
  intros Hc Hpad Hij px py [[Hpx Hpy] [Hqx Hqy]].
  unfold placement_at in *. cbn [Placement.x Placement.y] in *.
  apply Hij. apply Nat2Z.inj.
  apply (rem_div_injective cols); try lia.
  - set (ci := Z.rem (Z.of_nat i) cols) in *.
    set (cj := Z.rem (Z.of_nat j) cols) in *. nia.
  - set (ri := Z.of_nat i / cols) in *.
    set (rj := Z.of_nat j / cols) in *. nia.
Qed.

(** *** Rendering in any order *)

Lemma same_bitmap_refl (c : Platform.Canvas) : same_bitmap c c.
Proof. repeat split. Qed.

Lemma same_bitmap_trans (c1 c2 c3 : Platform.Canvas) :
  same_bitmap c1 c2 -> same_bitmap c2 c3 -> same_bitmap c1 c3.
Proof.
  intros (Hw & Hh & Hp) (Hw' & Hh' & Hp').
  split; [congruence | split; [congruence|]].
  intros px py. now rewrite Hp.
Qed.

Lemma putImageData_same (c1 c2 : Platform.Canvas) (img : ImageData.t)
    (dx dy : Z) :
  same_bitmap c1 c2 ->
  same_bitmap (Platform.putImageData c1 img dx dy)
    (Platform.putImageData c2 img dx dy).
Proof.
  intros (Hw & Hh & Hp). unfold Platform.putImageData, same_bitmap.
  cbn [Platform.cv_width Platform.cv_height Platform.cv_pixel].
  repeat split; auto. intros px py. now rewrite Hw, Hh, Hp.
Qed.

Section RenderFacts.

Variable frames : list SpriteFrame.t.
Variables cols cw ch pad : Z.

Local Abbreviation step := (draw_step frames cols cw ch pad).
Local Abbreviation draw := (draw_in_order frames cols cw ch pad).
Local Abbreviation on := (drawn_on frames cols cw ch pad).

Lemma draw_step_same (c1 c2 : Platform.Canvas) (i : nat) :
  same_bitmap c1 c2 -> same_bitmap (step c1 i) (step c2 i).
Proof.
  unfold draw_step. intros H.
  destruct (nth_error frames i); [now apply putImageData_same | exact H].
Qed.

Lemma draw_in_order_same (order : list nat) :
  forall c1 c2, same_bitmap c1 c2 -> same_bitmap (draw order c1) (draw order c2).
Proof.
  unfold draw_in_order.
  induction order as [|i order IH]; intros c1 c2 H; simpl; [exact H|].
  apply IH. now apply draw_step_same.
Qed.

(** Two frames drawn on different pixels can be drawn in either order. *)
Lemma draw_step_commute (c : Platform.Canvas) (i j : nat) :
  (forall px py, on i px py && on j px py = false) ->
  same_bitmap (step (step c i) j) (step (step c j) i).
Proof.
  unfold draw_step, drawn_on. intros Hapart.
  destruct (nth_error frames i) as [fi|], (nth_error frames j) as [fj|];
    try apply same_bitmap_refl.
  unfold Platform.putImageData, same_bitmap.
  cbn [Platform.cv_width Platform.cv_height Platform.cv_pixel].
  repeat split. intros px py. specialize (Hapart px py). simpl in Hapart.
  destruct (Platform.in_rect px py _ _ (ImageData.width (SpriteFrame.imageData fi)) _);
    destruct (Platform.in_rect px py _ _ (ImageData.width (SpriteFrame.imageData fj)) _);
    simpl in *; try discriminate; reflexivity.
Qed.

Lemma draw_in_order_permutation (l l' : list nat) :
  Permutation l l' ->
  NoDup l ->
  (forall i j, In i l -> In j l -> i <> j ->
     forall px py, on i px py && on j px py = false) ->
  forall c, same_bitmap (draw l c) (draw l' c).
Proof.
  unfold draw_in_order.
  induction 1 as [|i l l' Hperm IH|i j l|l l' l'' H1 IH1 H2 IH2];
    intros Hnd Hapart c; simpl.
  - apply same_bitmap_refl.
  - apply IH.
    + now inversion Hnd.
    + intros a b Ha Hb. apply Hapart; now right.
  - apply (draw_in_order_same l). apply draw_step_commute.
    apply Hapart; simpl; auto.
    inversion Hnd as [|? ? Hnotin _]. simpl in Hnotin. intros E. subst. auto.
  - apply same_bitmap_trans with (fold_left step l' c).
    + now apply IH1.
    + apply IH2.
      * now apply (Permutation_NoDup H1).
      * intros a b Ha Hb. apply Hapart; apply (Permutation_in _ (Permutation_sym H1)); assumption.
Qed.

(** The loop renders at the indices [0, 1, ...] in turn. *)
Lemma draw_from_in_order (n : nat) :
  forall i ctx,
    (i + n)%nat = length frames ->
    draw_from cols cw ch pad i (skipn i frames) ctx = draw (seq i n) ctx.
Proof.
  unfold draw_in_order.
  induction n as [|n IH]; intros i ctx Hlen; simpl.
  - now rewrite skipn_all2 by lia.
  - unfold draw_step at 2.
    destruct (nth_error frames i) as [f|] eqn:Hf.
    + rewrite (skipn_nth_error_cons _ _ _ Hf). simpl. apply IH. lia.
    + apply nth_error_None in Hf. lia.
Qed.

(** A frame no larger than the cell is drawn inside its cell, so two
    frames are drawn on different pixels. *)
Lemma drawn_on_apart (i j : nat) :
  cols <> 0 -> 0 <= pad ->
  Forall frame_consistent frames ->
  (forall f, In f frames -> frame_width f <= cw /\ frame_height f <= ch) ->
  i <> j ->
  forall px py, on i px py && on j px py = false.
Proof.
  unfold drawn_on. intros Hc Hpad Hcons Hfit Hij px py.
  destruct (nth_error frames i) as [fi|] eqn:Hi; [|reflexivity].
  destruct (nth_error frames j) as [fj|] eqn:Hj; [|apply andb_false_r].
  apply nth_error_In in Hi, Hj. rewrite Forall_forall in Hcons.
  destruct (Hcons fi Hi) as [Ewi Ehi]. destruct (Hcons fj Hj) as [Ewj Ehj].
  destruct (Hfit fi Hi) as [Hwi Hhi]. destruct (Hfit fj Hj) as [Hwj Hhj].
  rewrite Ewi, Ehi, Ewj, Ehj.
  apply not_true_is_false. intros Hboth.
  apply andb_true_iff in Hboth as [Hin_i Hin_j].
  apply (placement_cells_apart cols cw ch pad i j fi fj Hc Hpad Hij px py).
  unfold Platform.in_rect in Hin_i, Hin_j. unfold in_cell.
  repeat rewrite andb_true_iff in Hin_i, Hin_j.
  rewrite !Z.leb_le, !Z.ltb_lt in Hin_i, Hin_j. lia.
Qed.

End RenderFacts.

(** C6: for any mode and any padding that is not negative, the cells
    (the [cellWidth] by [cellHeight] rectangles at the placements'
    origins) of two different placements have no point in common; so,
    for frames whose image has its stated size, rendering the frames in
    any other order gives the very bitmap the engine encodes. *)
Theorem cells_disjoint (env : Platform.Env)
    (frames : list SpriteFrame.t) (config : ProcessingConfig.t)
    (res : SpriteSheetResult.t) :
  generateSpritesheet env frames config = Return res ->
  0 <= ProcessingConfig.padding config ->
  (forall (i j : nat) (p q : Placement.t),
      i <> j ->
      nth_error (SpriteSheetResult.frames res) i = Some p ->
      nth_error (SpriteSheetResult.frames res) j = Some q ->
      forall px py,
        ~ (in_cell (cellWidth frames) (cellHeight frames) p px py
           /\ in_cell (cellWidth frames) (cellHeight frames) q px py))
  /\ (Forall frame_consistent frames ->
      forall order,
        Permutation (seq 0 (length frames)) order ->
        same_bitmap
          (Platform.blob_bitmap (SpriteSheetResult.blob res))
          (draw_in_order frames (sheet_cols frames config)
             (cellWidth frames) (cellHeight frames)
             (ProcessingConfig.padding config) order
             (Platform.mkCanvas (SpriteSheetResult.width res)
                (SpriteSheetResult.height res)
                (fun _ _ => Platform.transparent)))).
Proof.
  intros H Hpad.
  destruct (generateSpritesheet_inv _ _ _ _ H)
    as (Hne & _ & _ & Hfs & _ & _ & Hblob).
  pose proof (grid_shape_cols_nonzero (ProcessingConfig.layout config)
                (ProcessingConfig.columns config) _
                (length_pos_of_nonempty frames Hne)) as Hc.
  fold (sheet_cols frames config) in Hc. split.
  - intros i j p q Hij Hp Hq px py.
    rewrite Hfs, placements_from_nth in Hp, Hq.
    destruct (nth_error frames i) as [fi|]; [|discriminate].
    destruct (nth_error frames j) as [fj|]; [|discriminate].
    simpl in Hp, Hq. inversion Hp; subst p; clear Hp.
    inversion Hq; subst q; clear Hq.
    now apply placement_cells_apart.
  - intros Hcons order Hperm. rewrite Hblob.
    rewrite <- (skipn_O frames) at 4.
    rewrite (draw_from_in_order frames _ _ _ _ (length frames)) by reflexivity.
    apply draw_in_order_permutation; [exact Hperm | apply seq_NoDup |].
    intros i j _ _ Hij. apply drawn_on_apart; auto.
    intros f Hf. split.
    + now apply cellWidth_is_max.
    + now apply cellHeight_is_max.
Qed.

Lemma cells_disjoint_witness :
  exists res p q,
    generateSpritesheet sample_env four_frames grid_of_two = Return res
    /\ nth_error (SpriteSheetResult.frames res) 0 = Some p
    /\ nth_error (SpriteSheetResult.frames res) 1 = Some q
    /\ ~ (in_cell 10 10 p 9 9 /\ in_cell 10 10 q 9 9)
    /\ same_bitmap (Platform.blob_bitmap (SpriteSheetResult.blob res))
         (draw_in_order four_frames 2 10 10 2 [3; 2; 1; 0]%nat
            (Platform.mkCanvas 22 22 (fun _ _ => Platform.transparent))).
Proof.
  assert (Hpad : 0 <= ProcessingConfig.padding grid_of_two) by (simpl; lia).
  assert (Hcons : Forall frame_consistent four_frames).
  { unfold four_frames, frame_consistent. repeat constructor. }
  eexists. eexists. eexists.
  split; [reflexivity|]. split; [reflexivity|]. split; [reflexivity|].
  destruct (cells_disjoint sample_env four_frames grid_of_two _ eq_refl Hpad)
    as [Hcells Horder].
  split.
  - exact (Hcells 0%nat 1%nat _ _ ltac:(lia) eq_refl eq_refl 9 9).
  - exact (Horder Hcons _ (Permutation_rev [0; 1; 2; 3]%nat)).
Defined.

(** ** Placements stay on the sheet *)

(** C10: for sized frames and a valid configuration every placement
    rectangle lies on the sheet: it starts at a point that is not
    negative and [x + w <= width], [y + h <= height]. *)
Theorem placements_within_canvas (env : Platform.Env)
    (frames : list SpriteFrame.t) (config : ProcessingConfig.t)
    (res : SpriteSheetResult.t) :
  generateSpritesheet env frames config = Return res ->
  Forall frame_sized frames ->
  config_valid config ->
  forall (i : nat) (p : Placement.t),
    nth_error (SpriteSheetResult.frames res) i = Some p ->
    (0 <= Placement.x p /\ 0 <= Placement.y p)
    /\ Placement.x p + Placement.w p <= SpriteSheetResult.width res
    /\ Placement.y p + Placement.h p <= SpriteSheetResult.height res.
Proof.
  intros H Hsz [Hpad Hcol] i p Hp.
  apply columns_valid_not_negative in Hcol.
  destruct (generateSpritesheet_inv _ _ _ _ H)
    as (Hne & Hw & Hh & Hfs & _).
  pose proof (sheet_cols_pos frames config Hne Hcol) as Hc.
  pose proof (length_pos_of_nonempty frames Hne) as Hn.
  destruct (cellWidth_is_max frames Hne) as [Hwmax _].
  destruct (cellHeight_is_max frames Hne) as [Hhmax _].
  rewrite Hfs, placements_from_nth in Hp.
  destruct (nth_error frames i) as [f|] eqn:Hf; [|discriminate].
  simpl in Hp. rewrite placement_at_spec in Hp by assumption.
  inversion Hp; subst p; clear Hp. cbn [Placement.x Placement.y Placement.w Placement.h].
  pose proof (nth_error_In _ _ Hf) as Hin.
  assert (Hi : Z.of_nat i < Z.of_nat (length frames)).
  { apply Nat2Z.inj_lt. apply nth_error_Some. congruence. }
  rewrite Forall_forall in Hsz. destruct (Hsz f Hin) as [Hfw Hfh].
  specialize (Hwmax f Hin). specialize (Hhmax f Hin).
  rewrite Hw, Hh. unfold spec_cellX, spec_cellY.
  set (cols := sheet_cols frames config) in *.
  set (pad := ProcessingConfig.padding config) in *.
  set (cw := cellWidth frames) in *. set (ch := cellHeight frames) in *.
  pose proof (Z.mod_pos_bound (Z.of_nat i) cols Hc) as Hcolb.
  assert (Hrow0 : 0 <= Z.of_nat i / cols) by (apply Z.div_pos; lia).
  assert (Hrow : Z.of_nat i / cols <= sheet_rows frames config - 1).
  { unfold sheet_rows. fold cols in Hc.
    unfold cols, sheet_cols in *.
    destruct (ProcessingConfig.layout config); cbn [grid_shape fst snd] in *.
    - rewrite Z.div_small by lia. lia.
    - rewrite Z.div_1_r. lia.
    - set (k := js_or _ _) in *.
      pose proof (Math_ceil_div_spec (Z.of_nat (length frames)) k Hc) as Hq.
      unfold is_ceil_quot in Hq.
      pose proof (Z.div_mod (Z.of_nat i) k ltac:(lia)) as Hdm.
      pose proof (Z.mod_pos_bound (Z.of_nat i) k Hc) as Hmb.
      nia. }
  set (col := Z.of_nat i mod cols) in *.
  set (row := Z.of_nat i / cols) in *.
  set (rows := sheet_rows frames config) in *.
  repeat split; nia.
Qed.

Lemma placements_within_canvas_witness :
  exists res p,
    generateSpritesheet sample_env four_frames grid_of_two = Return res
    /\ nth_error (SpriteSheetResult.frames res) 3 = Some p
    /\ Placement.x p + Placement.w p <= 22
    /\ Placement.y p + Placement.h p <= 22.
Proof.
  assert (Hsz : Forall frame_sized four_frames).
  { unfold four_frames, frame_sized, frame_width, frame_height.
    repeat constructor. }
  assert (Hvalid : config_valid grid_of_two) by (split; simpl; lia).
  eexists. eexists. split; [reflexivity|]. split; [reflexivity|].
  destruct (placements_within_canvas sample_env four_frames grid_of_two _
              eq_refl Hsz Hvalid 3%nat _ eq_refl) as (_ & Hx & Hy).
  split; [exact Hx | exact Hy].
Defined.

(** ** The adapter *)



(** What the callback of [map] does with one step. *)
Lemma adapt_frame_outcome (d : ParsedFrame.t) (index : nat) :
  adapt_frame d index
  = if patch_bytes_ok d
    then if step_constructible d then Return (canonical_frame index d)
         else Throw IndexSizeError
    else Throw InvalidStateError.
Proof.
  unfold adapt_frame, new_ImageData, step_constructible, patch_bytes_ok,
    canonical_frame, new_Uint8ClampedArray.
  rewrite length_map. cbv zeta.
  destruct (Z.of_nat (length (ParsedFrame.patch d)) =? 0); [reflexivity|].
  destruct (Z.of_nat (length (ParsedFrame.patch d)) mod 4 =? 0);
    [|reflexivity].
  cbn [negb orb andb].
  destruct (to_unsigned_long (Dims.width (ParsedFrame.dims d)) =? 0);
    [reflexivity|].
  cbn [negb orb andb].
  destruct (_ mod to_unsigned_long (Dims.width (ParsedFrame.dims d)) =? 0);
    [|reflexivity].
  cbn [negb orb andb].
  destruct (_ / to_unsigned_long (Dims.width (ParsedFrame.dims d))
            =? to_unsigned_long (Dims.height (ParsedFrame.dims d)));
    reflexivity.
Qed.

Lemma step_constructible_bytes (d : ParsedFrame.t) :
  step_constructible d = true -> patch_bytes_ok d = true.
Proof.
  unfold step_constructible. cbv zeta. intros H.
  do 3 (apply andb_true_iff in H as [H _]). exact H.
Qed.

Lemma map_from_all_constructible (steps : list ParsedFrame.t) :
  (forall d, In d steps -> step_constructible d = true) ->
  forall index, map_from index steps = Return (canonical_from index steps).
Proof.
  induction steps as [|d steps IH]; intros Hall index; simpl.
  - reflexivity.
  - rewrite adapt_frame_outcome.
    assert (Hd : step_constructible d = true) by (apply Hall; now left).
    rewrite (step_constructible_bytes d Hd), Hd.
    cbn [bind]. rewrite IH by (intros d' Hd'; apply Hall; now right).
    reflexivity.
Qed.

(** The first step that fails its check ends the call. *)
Lemma map_from_first_failure (before : list ParsedFrame.t) :
  forall (d : ParsedFrame.t) (after : list ParsedFrame.t) index,
    (forall d', In d' before -> step_constructible d' = true) ->
    step_constructible d = false ->
    map_from index (before ++ d :: after)
    = Throw (if patch_bytes_ok d then IndexSizeError else InvalidStateError).
Proof.
  induction before as [|d0 before IH]; intros d after index Hall Hbad; simpl.
  - rewrite adapt_frame_outcome, Hbad.
    destruct (patch_bytes_ok d); reflexivity.
  - rewrite adapt_frame_outcome.
    assert (Hd0 : step_constructible d0 = true) by (apply Hall; now left).
    rewrite (step_constructible_bytes d0 Hd0), Hd0.
    cbn [bind]. rewrite IH; auto. intros d' Hd'. apply Hall. now right.
Qed.

(** A list of steps either passes as a whole or has a first failure. *)
Lemma first_failure_split (steps : list ParsedFrame.t) :
  (forall d, In d steps -> step_constructible d = true)
  \/ exists before d after,
      steps = before ++ d :: after
      /\ (forall d', In d' before -> step_constructible d' = true)
      /\ step_constructible d = false.
Proof.
  induction steps as [|d steps IH].
  - left. intros d [].
  - destruct (step_constructible d) eqn:Hd.
    + destruct IH as [Hall|(before & d' & after & -> & Hb & Hbad)].
      * left. intros d' [<-|Hin]; auto.
      * right. exists (d :: before), d', after.
        split; [reflexivity|]. split; [|exact Hbad].
        intros d'' [<-|Hin]; auto.
    + right. exists [], d, steps. split; [reflexivity|].
      split; [intros d' []| exact Hd].
Qed.

Lemma map_from_Return_inv (steps : list ParsedFrame.t) (index : nat)
    (frames : list SpriteFrame.t) :
  map_from index steps = Return frames ->
  (forall d, In d steps -> step_constructible d = true)
  /\ frames = canonical_from index steps.
Proof.
  intros H.
  destruct (first_failure_split steps)
    as [Hall|(before & d & after & -> & Hb & Hbad)].
  - rewrite (map_from_all_constructible steps Hall) in H.
    inversion H. auto.
  - rewrite (map_from_first_failure before d after index Hb Hbad) in H.
    discriminate.
Qed.

Lemma canonical_from_length (steps : list ParsedFrame.t) :
  forall index, length (canonical_from index steps) = length steps.
Proof. induction steps; intros; simpl; auto. Qed.

Lemma canonical_from_nth (steps : list ParsedFrame.t) :
  forall index i,
    nth_error (canonical_from index steps) i
    = option_map (canonical_frame (index + i)) (nth_error steps i).
Proof.
  induction steps as [|d steps IH]; intros index [|i]; simpl; auto.
  - now rewrite Nat.add_0_r.
  - rewrite IH. now rewrite Nat.add_succ_r.
Qed.





(** * Further properties *)

(** ** Every outcome of the engine *)

(** With at least one frame, what the engine does is decided by the size
    of the sheet and by the host. *)
Lemma generateSpritesheet_outcome (env : Platform.Env)
    (frames : list SpriteFrame.t) (config : ProcessingConfig.t) :
  frames <> [] ->
  let W := totalWidth frames config in
  let H := totalHeight frames config in
  generateSpritesheet env frames config
  = if (W <? 0) || (H <? 0) then Throw TypeError
    else if Platform.canvas_size_in_range env W H
    then if Platform.context2d_available env W H
         then if (W =? 0) || (H =? 0) then Throw IndexSizeError
              else match Platform.encoding_failure env W H with
                   | Some name => Throw (DOMException name)
                   | None => Return (sheet_result env frames config)
                   end
         else Throw (Error "Could not get 2D context")
    else Throw TypeError.
Proof.
  destruct frames as [|f0 rest]; [congruence|]. intros _.
  unfold generateSpritesheet, sheet_result, sheet_bitmap, sheet_placements,
    totalWidth, totalHeight, sheet_cols, sheet_rows.
  cbn [cellWidth cellHeight].
  destruct (grid_shape _ _ _) as [cols rows]. cbn [fst snd]. cbv zeta.
  unfold Platform.new_OffscreenCanvas.
  destruct (_ || _); [reflexivity|].
  destruct (Platform.canvas_size_in_range _ _ _); [|reflexivity].
  cbn [bind].
  unfold Platform.getContext. cbn [Platform.cv_width Platform.cv_height].
  destruct (Platform.context2d_available _ _ _); [|reflexivity].
  rewrite place_loop_spec by (simpl; lia). cbn [bind fst snd skipn app].
  unfold Platform.convertToBlob.
  rewrite (proj1 (draw_from_size _ _ _ _ _ _ _)).
  rewrite (proj2 (draw_from_size _ _ _ _ _ _ _)).
  cbn [Platform.cv_width Platform.cv_height].
  destruct (_ || _); [reflexivity|].
  destruct (Platform.encoding_failure _ _ _); reflexivity.
Qed.

(** ** The pixels of the sheet *)

Section PixelFacts.

Variable frames : list SpriteFrame.t.
Variables cols cw ch pad : Z.

Local Abbreviation step := (draw_step frames cols cw ch pad).
Local Abbreviation draw := (draw_in_order frames cols cw ch pad).
Local Abbreviation on := (drawn_on frames cols cw ch pad).

Lemma draw_step_size (c : Platform.Canvas) (i : nat) :
  Platform.cv_width (step c i) = Platform.cv_width c
  /\ Platform.cv_height (step c i) = Platform.cv_height c.
Proof.
  unfold draw_step. destruct (nth_error frames i); simpl; auto.
Qed.

Lemma draw_in_order_cons (j : nat) (order : list nat) (c : Platform.Canvas) :
  draw (j :: order) c = draw order (step c j).
Proof. reflexivity. Qed.

(** A pixel no frame of [order] is drawn on keeps its colour. *)
Lemma draw_in_order_miss (order : list nat) :
  forall c px py,
    (forall k, In k order -> on k px py = false) ->
    Platform.cv_pixel (draw order c) px py = Platform.cv_pixel c px py.
Proof.
  induction order as [|j order IH]; intros c px py Hmiss.
  - reflexivity.
  - rewrite draw_in_order_cons.
    rewrite IH by (intros k Hk; apply Hmiss; now right).
    specialize (Hmiss j (or_introl eq_refl)).
    unfold draw_step, drawn_on in *.
    destruct (nth_error frames j) as [f|]; [|reflexivity].
    cbn [Platform.putImageData Platform.cv_pixel].
    cbv zeta in Hmiss. rewrite Hmiss. reflexivity.
Qed.

(** A pixel of the bitmap that frame [i] is drawn on has the colour of
    the frame's image there, when no other frame of [order] is drawn on
    it. *)
Lemma draw_in_order_hit (order : list nat) :
  forall c i f px py,
    NoDup order ->
    (forall a b, In a order -> In b order -> a <> b ->
       forall qx qy, on a qx qy && on b qx qy = false) ->
    In i order ->
    nth_error frames i = Some f ->
    on i px py = true ->
    Platform.in_rect px py 0 0 (Platform.cv_width c) (Platform.cv_height c)
      = true ->
    Platform.cv_pixel (draw order c) px py
    = Platform.stored_colour
        (Platform.image_pixel (SpriteFrame.imageData f)
           (px - Placement.x (placement_at cols cw ch pad i f))
           (py - Placement.y (placement_at cols cw ch pad i f))).
Proof.
  induction order as [|j order IH];
    intros c i f px py Hnd Hapart Hin Hf Hon Hclip.
  - destruct Hin.
  - rewrite draw_in_order_cons.
    inversion Hnd as [|? ? Hnotin Hnd']; subst.
    destruct Hin as [->|Hin].
    + rewrite (draw_in_order_miss order).
      * unfold draw_step, drawn_on in *. rewrite Hf in *.
        cbn [Platform.putImageData Platform.cv_pixel].
        cbv zeta in Hon. rewrite Hon, Hclip. reflexivity.
      * intros k Hk.
        assert (Hik : i <> k) by (intros ->; contradiction).
        specialize (Hapart i k (or_introl eq_refl) (or_intror Hk) Hik px py).
        rewrite Hon in Hapart. exact Hapart.
    + apply IH; auto.
      * intros a b Ha Hb. apply Hapart; now right.
      * rewrite (proj1 (draw_step_size c j)), (proj2 (draw_step_size c j)).
        exact Hclip.
Qed.

End PixelFacts.

Lemma stored_colour_opaque (r g b : Z) :
  Platform.stored_colour (r, g, b, 255) = (r, g, b, 255).
Proof.
  unfold Platform.stored_colour, Platform.unpremultiply, Platform.premultiply.
  change (255 =? 0) with false. cbv iota.
  assert (E : forall c, ((c * 255 + 127) / 255 * 255 + 255 / 2) / 255 = c).
  { intros c. change (255 / 2) with 127.
    assert (E1 : (c * 255 + 127) / 255 = c).
    { rewrite Z.add_comm, Z.div_add by lia. reflexivity. }
    now rewrite E1, E1. }
  now rewrite !E.
Qed.

Lemma stored_colour_alpha (px : Platform.RGBA) :
  snd (Platform.stored_colour px) = snd px.
Proof. destruct px as [[[r g] b] a]. reflexivity. Qed.

Lemma stored_colour_clear (r g b : Z) :
  Platform.stored_colour (r, g, b, 0) = Platform.transparent.
Proof. reflexivity. Qed.

(** X3: in the encoded bitmap each frame's image sits, unscaled, with its
    top-left pixel on the placement's origin.  At offset [(u, v)] from the
    origin, wherever that lies on the sheet, the sheet has the alpha of
    the image's pixel [(u, v)]; the very pixel, colour and all, when it is
    opaque; and a transparent pixel when its alpha is 0.  Every pixel
    outside all placement rectangles is transparent. *)
Theorem composite_pixels (env : Platform.Env)
    (frames : list SpriteFrame.t) (config : ProcessingConfig.t)
    (res : SpriteSheetResult.t) :
  generateSpritesheet env frames config = Return res ->
  0 <= ProcessingConfig.padding config ->
  Forall frame_consistent frames ->
  let bitmap := Platform.blob_bitmap (SpriteSheetResult.blob res) in
  (forall i p f u v,
      nth_error (SpriteSheetResult.frames res) i = Some p ->
      nth_error frames i = Some f ->
      0 <= u < Placement.w p ->
      0 <= v < Placement.h p ->
      0 <= Placement.x p + u < SpriteSheetResult.width res ->
      0 <= Placement.y p + v < SpriteSheetResult.height res ->
      let drawn :=
        Platform.cv_pixel bitmap (Placement.x p + u) (Placement.y p + v) in
      let source := Platform.image_pixel (SpriteFrame.imageData f) u v in
      snd drawn = snd source
      /\ (snd source = 255 -> drawn = source)
      /\ (snd source = 0 -> drawn = Platform.transparent))
  /\ (forall px py,
        (forall i p,
            nth_error (SpriteSheetResult.frames res) i = Some p ->
            ~ (Placement.x p <= px < Placement.x p + Placement.w p
               /\ Placement.y p <= py < Placement.y p + Placement.h p)) ->
        Platform.cv_pixel bitmap px py = Platform.transparent).
Proof.
  intros H Hpad Hcons bitmap.
  destruct (generateSpritesheet_inv _ _ _ _ H)
    as (Hne & _ & _ & Hfs & _ & _ & Hblob).
  pose proof (grid_shape_cols_nonzero (ProcessingConfig.layout config)
                (ProcessingConfig.columns config) _
                (length_pos_of_nonempty frames Hne)) as Hc.
  fold (sheet_cols frames config) in Hc.
  subst bitmap. rewrite Hblob.
  set (cols := sheet_cols frames config) in *.
  set (pad := ProcessingConfig.padding config) in *.
  set (cw := cellWidth frames) in *. set (ch := cellHeight frames) in *.
  set (blank := Platform.mkCanvas _ _ _).
  replace (draw_from cols cw ch pad 0 frames blank)
    with (draw_in_order frames cols cw ch pad (seq 0 (length frames)) blank)
    by (symmetry;
        exact (draw_from_in_order frames cols cw ch pad (length frames)
                 0%nat blank eq_refl)).
  assert (Hfit : forall f, In f frames ->
                   frame_width f <= cw /\ frame_height f <= ch).
  { intros f Hf. split;
      [now apply cellWidth_is_max | now apply cellHeight_is_max]. }
  split.
  - intros i p f u v Hp Hf Hu Hv Hx Hy drawn source.
    rewrite Hfs, placements_from_nth, Hf in Hp. simpl in Hp.
    inversion Hp; subst p; clear Hp.
    unfold placement_at in Hu, Hv. cbn [Placement.w Placement.h] in Hu, Hv.
    set (p := placement_at cols cw ch pad i f) in *.
    rewrite Forall_forall in Hcons.
    destruct (Hcons f (nth_error_In _ _ Hf)) as [Ew Eh].
    assert (Hdrawn : drawn = Platform.stored_colour source).
    { subst drawn source.
      rewrite (draw_in_order_hit frames cols cw ch pad _ _ i f).
      + fold p. do 2 f_equal; lia.
      + apply seq_NoDup.
      + intros a b _ _ Hab. apply drawn_on_apart; auto.
        now apply Forall_forall.
      + apply in_seq. split; [lia|]. simpl.
        apply nth_error_Some. congruence.
      + exact Hf.
      + unfold drawn_on. rewrite Hf. cbv zeta. fold p.
        unfold Platform.in_rect. rewrite Ew, Eh.
        unfold frame_width, frame_height.
        repeat (apply andb_true_intro; split);
          try apply Z.leb_le; try apply Z.ltb_lt; lia.
      + subst blank. cbn [Platform.cv_width Platform.cv_height].
        unfold Platform.in_rect.
        repeat (apply andb_true_intro; split);
          try apply Z.leb_le; try apply Z.ltb_lt; lia. }
    rewrite Hdrawn. destruct source as [[[r g] b] a]. cbn [snd].
    split; [reflexivity|].
    split; intros ->;
      [apply stored_colour_opaque | apply stored_colour_clear].
  - intros px py Hout.
    rewrite draw_in_order_miss; [reflexivity|].
    intros k _. unfold drawn_on.
    destruct (nth_error frames k) as [f|] eqn:Hf; [|reflexivity].
    cbv zeta. rewrite Forall_forall in Hcons.
    destruct (Hcons f (nth_error_In _ _ Hf)) as [Ew Eh].
    apply not_true_is_false. intros Hin.
    apply (Hout k (placement_at cols cw ch pad k f)).
    + rewrite Hfs, placements_from_nth, Hf. reflexivity.
    + unfold Platform.in_rect in Hin. rewrite Ew, Eh in Hin.
      repeat rewrite andb_true_iff in Hin.
      rewrite !Z.leb_le, !Z.ltb_lt in Hin.
      cbn [placement_at Placement.w Placement.h Placement.x Placement.y] in *.
      unfold frame_width, frame_height in Hin. lia.
Qed.

Lemma composite_pixels_witness :
  exists res,
    generateSpritesheet sample_env four_frames grid_of_two = Return res
    /\ Platform.cv_pixel (Platform.blob_bitmap (SpriteSheetResult.blob res))
         (12 + 9) (0 + 5) = (255, 255, 255, 255)
    /\ Platform.cv_pixel (Platform.blob_bitmap (SpriteSheetResult.blob res))
         10 3 = Platform.transparent.
Proof.
  assert (Hpad : 0 <= ProcessingConfig.padding grid_of_two) by (simpl; lia).
  assert (Hcons : Forall frame_consistent four_frames).
  { unfold four_frames, frame_consistent. repeat constructor. }
  eexists. split; [reflexivity|].
  destruct (composite_pixels sample_env four_frames grid_of_two _ eq_refl
              Hpad Hcons) as [Hin Hout].
  split.
  - destruct (Hin 1%nat (Placement.mk 12 0 10 6 20) (sample_frame 10 6 20)
                9 5 eq_refl eq_refl) as (_ & Hopaque & _);
      [simpl; lia .. |].
    exact (Hopaque eq_refl).
  - apply Hout. intros i p Hp.
    destruct i as [|[|[|[|i]]]]; vm_compute in Hp;
      [inversion Hp; simpl; lia .. | destruct i; discriminate].
Defined.

(** A colour that is not opaque is not kept: (200, 100, 50) at alpha 3
    is read back as (170, 85, 85). *)
Example stored_colour_translucent :
  Platform.stored_colour (200, 100, 50, 3) = (170, 85, 85, 3).
Proof. reflexivity. Qed.

(** ** The order of the cells *)

(** Column and row of the next index, for a positive number of columns. *)
Lemma next_cell (c a : Z) :
  0 < c -> 0 <= a ->
  ((a + 1) mod c <> 0 -> (a + 1) mod c = a mod c + 1 /\ (a + 1) / c = a / c)
  /\ ((a + 1) mod c = 0 -> a mod c = c - 1 /\ (a + 1) / c = a / c + 1).
Proof.
  intros Hc Ha.
  pose proof (Z.div_mod a c ltac:(lia)) as Ea.
  pose proof (Z.div_mod (a + 1) c ltac:(lia)) as Eb.
  pose proof (Z.mod_pos_bound a c Hc) as Ma.
  pose proof (Z.mod_pos_bound (a + 1) c Hc) as Mb.
  set (qa := a / c) in *. set (ra := a mod c) in *.
  set (qb := (a + 1) / c) in *. set (rb := (a + 1) mod c) in *.
  assert (Hq : qb = qa \/ qb = qa + 1) by nia.
  split; intros H; destruct Hq as [Hq|Hq]; subst qb; nia.
Qed.

(** X4: the cells are filled row by row, left to right: the first frame
    sits at the origin, and each next frame is one cell width plus the
    padding to the right of its predecessor in the same row, or, when a
    row is full, at the left edge one cell height plus the padding
    below. *)
Theorem row_major_steps (env : Platform.Env)
    (frames : list SpriteFrame.t) (config : ProcessingConfig.t)
    (res : SpriteSheetResult.t) :
  generateSpritesheet env frames config = Return res ->
  columns_not_negative (ProcessingConfig.columns config) ->
  let cols := sheet_cols frames config in
  let pad := ProcessingConfig.padding config in
  (forall p, nth_error (SpriteSheetResult.frames res) 0 = Some p ->
             Placement.x p = 0 /\ Placement.y p = 0)
  /\ (forall i p q,
        nth_error (SpriteSheetResult.frames res) i = Some p ->
        nth_error (SpriteSheetResult.frames res) (S i) = Some q ->
        (Z.of_nat (S i) mod cols <> 0 ->
         Placement.x q = Placement.x p + cellWidth frames + pad
         /\ Placement.y q = Placement.y p)
        /\ (Z.of_nat (S i) mod cols = 0 ->
            Placement.x q = 0
            /\ Placement.y q = Placement.y p + cellHeight frames + pad)).
Proof.
  intros H Hcol cols pad.
  destruct (generateSpritesheet_inv _ _ _ _ H) as (Hne & _ & _ & Hfs & _).
  pose proof (sheet_cols_pos frames config Hne Hcol) as Hpos.
  fold cols in Hpos, Hfs. fold pad in Hfs. rewrite Hfs. split.
  - intros p Hp. rewrite placements_from_nth in Hp.
    destruct (nth_error frames 0) as [f|]; [|discriminate].
    simpl in Hp. rewrite placement_at_spec in Hp by assumption.
    inversion Hp; subst p. unfold spec_cellX, spec_cellY.
    cbn [Placement.x Placement.y]. change (Z.of_nat 0) with 0.
    rewrite Z.mod_0_l, Z.div_0_l by lia. lia.
  - intros i p q Hp Hq. rewrite placements_from_nth in Hp, Hq.
    destruct (nth_error frames i) as [fi|]; [|discriminate].
    destruct (nth_error frames (S i)) as [fj|]; [|discriminate].
    simpl in Hp, Hq. rewrite placement_at_spec in Hp, Hq by assumption.
    inversion Hp; subst p. inversion Hq; subst q.
    unfold spec_cellX, spec_cellY. cbn [Placement.x Placement.y].
    rewrite Nat2Z.inj_succ, <- Z.add_1_r.
    destruct (next_cell cols (Z.of_nat i) Hpos ltac:(lia)) as [Hsame Hwrap].
    split; intros Hm.
    + destruct (Hsame Hm) as [-> ->]. split; lia.
    + destruct (Hwrap Hm) as [_ ->]. rewrite Hm. split; lia.
Qed.

Lemma row_major_steps_witness :
  exists res p1 p2,
    generateSpritesheet sample_env four_frames grid_of_two = Return res
    /\ nth_error (SpriteSheetResult.frames res) 1 = Some p1
    /\ nth_error (SpriteSheetResult.frames res) 2 = Some p2
    /\ Placement.x p1 = 0 + 10 + 2 /\ Placement.y p1 = 0
    /\ Placement.x p2 = 0 /\ Placement.y p2 = 0 + 10 + 2.
Proof.
  assert (Hcol : columns_not_negative (ProcessingConfig.columns grid_of_two))
    by (simpl; lia).
  eexists. eexists. eexists.
  split; [reflexivity|]. split; [reflexivity|]. split; [reflexivity|].
  destruct (row_major_steps sample_env four_frames grid_of_two _ eq_refl Hcol)
    as [_ Hstep].
  destruct (Hstep 0%nat _ _ eq_refl eq_refl) as [Hright _].
  destruct (Hstep 1%nat _ _ eq_refl eq_refl) as [_ Hdown].
  destruct (Hright ltac:(discriminate)) as [Hx1 Hy1].
  destruct (Hdown eq_refl) as [Hx2 Hy2].
  repeat split; assumption.
Defined.

(** ** Strips *)

(** X5: the [horizontal] mode gives one row: a sheet one cell high, frame
    [i] at [x = i*(cellWidth+padding)], [y = 0]; the [vertical] mode gives
    one column: a sheet one cell wide, frame [i] at [x = 0],
    [y = i*(cellHeight+padding)].  [columns] plays no part. *)
Theorem strip_layouts (env : Platform.Env) (frames : list SpriteFrame.t)
    (pad : Z) (columns : option Z) (res : SpriteSheetResult.t) :
  let n := Z.of_nat (length frames) in
  (generateSpritesheet env frames (ProcessingConfig.mk horizontal pad columns)
   = Return res ->
   SpriteSheetResult.width res = n * cellWidth frames + (n - 1) * pad
   /\ SpriteSheetResult.height res = cellHeight frames
   /\ forall i p,
       nth_error (SpriteSheetResult.frames res) i = Some p ->
       Placement.x p = Z.of_nat i * (cellWidth frames + pad)
       /\ Placement.y p = 0)
  /\ (generateSpritesheet env frames (ProcessingConfig.mk vertical pad columns)
      = Return res ->
      SpriteSheetResult.width res = cellWidth frames
      /\ SpriteSheetResult.height res = n * cellHeight frames + (n - 1) * pad
      /\ forall i p,
          nth_error (SpriteSheetResult.frames res) i = Some p ->
          Placement.x p = 0
          /\ Placement.y p = Z.of_nat i * (cellHeight frames + pad)).
Proof.
  intros n. split; intros H;
    destruct (generateSpritesheet_inv _ _ _ _ H) as (Hne & Hw & Hh & Hfs & _);
    unfold sheet_cols, sheet_rows in *;
    cbn [grid_shape fst snd ProcessingConfig.layout ProcessingConfig.padding
         ProcessingConfig.columns] in *; fold n in Hw, Hh, Hfs.
  - split; [exact Hw|]. split; [lia|].
    intros i p Hp. rewrite Hfs, placements_from_nth in Hp.
    destruct (nth_error frames i) as [f|] eqn:Hf; [|discriminate].
    assert (Hi : Z.of_nat i < n).
    { apply Nat2Z.inj_lt. apply nth_error_Some. congruence. }
    cbn [option_map] in Hp. inversion Hp; subst p.
    unfold placement_at. cbn [Placement.x Placement.y].
    rewrite Z.rem_small, Z.div_small by lia. split; lia.
  - split; [lia|]. split; [exact Hh|].
    intros i p Hp. rewrite Hfs, placements_from_nth in Hp.
    destruct (nth_error frames i) as [f|] eqn:Hf; [|discriminate].
    cbn [option_map] in Hp. inversion Hp; subst p.
    unfold placement_at. cbn [Placement.x Placement.y].
    rewrite Z.rem_1_r, Z.div_1_r. split; lia.
Qed.

Lemma strip_layouts_witness :
  exists res p,
    generateSpritesheet sample_env four_frames
      (ProcessingConfig.mk vertical 3 (Some 2)) = Return res
    /\ nth_error (SpriteSheetResult.frames res) 2 = Some p
    /\ SpriteSheetResult.width res = 10
    /\ SpriteSheetResult.height res = 4 * 10 + 3 * 3
    /\ Placement.x p = 0 /\ Placement.y p = 2 * (10 + 3).
Proof.
  exists (sheet_result sample_env four_frames
            (ProcessingConfig.mk vertical 3 (Some 2))).
  eexists. split; [reflexivity|]. split; [reflexivity|].
  destruct (strip_layouts sample_env four_frames 3 (Some 2)
              (sheet_result sample_env four_frames
                 (ProcessingConfig.mk vertical 3 (Some 2)))) as [_ Hv].
  destruct (Hv eq_refl) as (Hw & Hh & Hp).
  destruct (Hp 2%nat _ eq_refl) as [Hx Hy].
  repeat split; assumption.
Defined.

(** ** What the engine does not read *)

Section Views.

Variables cols cw ch pad : Z.

Lemma placements_from_view (fs1 : list SpriteFrame.t) :
  forall fs2 i,
    map layout_view fs1 = map layout_view fs2 ->
    placements_from cols cw ch pad i fs1 = placements_from cols cw ch pad i fs2.
Proof.
  induction fs1 as [|f1 fs1 IH]; intros [|f2 fs2] i Hv; simpl in *;
    try discriminate; [reflexivity|].
  inversion Hv as [[Himg Hw Hh Hd Hrest]].
  rewrite (IH fs2 (S i) Hrest). f_equal.
  unfold placement_at, frame_width, frame_height in *.
  now rewrite Hw, Hh, Hd.
Qed.

Lemma draw_from_view (fs1 : list SpriteFrame.t) :
  forall fs2 i ctx,
    map layout_view fs1 = map layout_view fs2 ->
    draw_from cols cw ch pad i fs1 ctx = draw_from cols cw ch pad i fs2 ctx.
Proof.
  induction fs1 as [|f1 fs1 IH]; intros [|f2 fs2] i ctx Hv; simpl in *;
    try discriminate; [reflexivity|].
  inversion Hv as [[Himg Hw Hh Hd Hrest]].
  rewrite Himg. unfold placement_at. cbn [Placement.x Placement.y].
  now apply IH.
Qed.

End Views.

Lemma layout_view_sizes (fs1 fs2 : list SpriteFrame.t) :
  map layout_view fs1 = map layout_view fs2 ->
  length fs1 = length fs2
  /\ cellWidth fs1 = cellWidth fs2 /\ cellHeight fs1 = cellHeight fs2.
Proof.
  intros Hv.
  assert (Hlen : length fs1 = length fs2)
    by (rewrite <- (length_map layout_view fs1), Hv; apply length_map).
  assert (Ew : forall fs, map frame_width fs
                          = map (fun v => snd (fst (fst v))) (map layout_view fs))
    by (intros fs; rewrite map_map; reflexivity).
  assert (Eh : forall fs, map frame_height fs
                          = map (fun v => snd (fst v)) (map layout_view fs))
    by (intros fs; rewrite map_map; reflexivity).
  assert (Hw : map frame_width fs1 = map frame_width fs2)
    by (rewrite (Ew fs1), (Ew fs2), Hv; reflexivity).
  assert (Hh : map frame_height fs1 = map frame_height fs2)
    by (rewrite (Eh fs1), (Eh fs2), Hv; reflexivity).
  split; [exact Hlen|].
  destruct fs1 as [|f1 fs1], fs2 as [|f2 fs2]; try discriminate; auto.
  simpl in Hw, Hh. inversion Hw. inversion Hh. simpl. split; congruence.
Qed.

(** X6: the engine depends on the frames only through their image, size
    and delay, taken by position: two frame lists that agree on these, and
    may differ in every [id] and every offset [top], [left], give the same
    outcome (the same sheet, or the same exception). *)
Theorem engine_ignores_ids_and_offsets (env : Platform.Env)
    (fs1 fs2 : list SpriteFrame.t) (config : ProcessingConfig.t) :
  map layout_view fs1 = map layout_view fs2 ->
  generateSpritesheet env fs1 config = generateSpritesheet env fs2 config.
Proof.
  intros Hv. destruct (layout_view_sizes fs1 fs2 Hv) as (Hlen & Hcw & Hch).
  destruct fs1 as [|f1 r1] eqn:E1, fs2 as [|f2 r2] eqn:E2;
    try discriminate; [reflexivity|].
  rewrite <- E1, <- E2 in *.
  assert (H1 : fs1 <> []) by (rewrite E1; discriminate).
  assert (H2 : fs2 <> []) by (rewrite E2; discriminate).
  rewrite (generateSpritesheet_outcome env fs1 config H1).
  rewrite (generateSpritesheet_outcome env fs2 config H2).
  assert (Hc : sheet_cols fs1 config = sheet_cols fs2 config)
    by (unfold sheet_cols; now rewrite Hlen).
  assert (Hr : sheet_rows fs1 config = sheet_rows fs2 config)
    by (unfold sheet_rows; now rewrite Hlen).
  assert (HW : totalWidth fs1 config = totalWidth fs2 config)
    by (unfold totalWidth; now rewrite Hc, Hcw).
  assert (HH : totalHeight fs1 config = totalHeight fs2 config)
    by (unfold totalHeight; now rewrite Hr, Hch).
  assert (Hres : sheet_result env fs1 config = sheet_result env fs2 config).
  { unfold sheet_result, sheet_bitmap, sheet_placements.
    rewrite HW, HH, Hc, Hcw, Hch.
    rewrite (placements_from_view _ _ _ _ fs1 fs2 0 Hv).
    rewrite (draw_from_view _ _ _ _ fs1 fs2 0 _ Hv). reflexivity. }
  now rewrite HW, HH, Hres.
Qed.

Lemma engine_ignores_ids_and_offsets_witness :
  map SpriteFrame.id relabelled_frames <> map SpriteFrame.id four_frames
  /\ generateSpritesheet sample_env relabelled_frames grid_of_two
     = generateSpritesheet sample_env four_frames grid_of_two.
Proof.
  split; [discriminate|].
  apply (engine_ignores_ids_and_offsets sample_env relabelled_frames
           four_frames grid_of_two).
  reflexivity.
Defined.

(** ** Every outcome of the adapter *)



(** ** From the adapter to the engine *)

Lemma canonical_frame_sound (index : nat) (d : ParsedFrame.t) :
  step_in_range d ->
  step_constructible d = true -> frame_sound (canonical_frame index d).
Proof.
  unfold step_in_range, step_constructible, patch_bytes_ok, frame_sound,
    frame_sized, frame_consistent, frame_width, frame_height,
    canonical_frame, new_Uint8ClampedArray, to_unsigned_long.
  cbv zeta. intros [Hw Hh] H.
  rewrite (Z.mod_small _ _ Hw), (Z.mod_small _ _ Hh) in H.
  rewrite (Z.mod_small _ _ Hw).
  repeat rewrite andb_true_iff in H.
  destruct H as [[[[Hlen0 Hlen4] Hsw] Hmod] Hdiv].
  apply negb_true_iff in Hlen0, Hsw.
  apply Z.eqb_neq in Hlen0, Hsw. apply Z.eqb_eq in Hlen4, Hmod, Hdiv.
  cbn [SpriteFrame.imageData SpriteFrame.dims ImageData.width
       ImageData.height ImageData.data Dims.width Dims.height].
  rewrite length_map.
  set (len := Z.of_nat (length (ParsedFrame.patch d))) in *.
  set (w := Dims.width (ParsedFrame.dims d)) in *.
  set (h := Dims.height (ParsedFrame.dims d)) in *.
  pose proof (Z.div_mod len 4 ltac:(lia)) as E4.
  pose proof (Z.div_mod (len / 4) w Hsw) as Ew.
  assert (Hlen : 0 <= len) by (subst len; lia).
  rewrite Hlen4 in E4. rewrite Hmod, Hdiv in Ew.
  rewrite Hdiv. repeat split; nia.
Qed.

Lemma canonical_from_sound (steps : list ParsedFrame.t) :
  Forall step_in_range steps ->
  (forall d, In d steps -> step_constructible d = true) ->
  forall index, Forall frame_sound (canonical_from index steps).
Proof.
  induction 1 as [|d steps Hd _ IH]; intros Hall index; simpl; constructor.
  - apply canonical_frame_sound; [exact Hd|]. apply Hall. now left.
  - apply IH. intros d' Hd'. apply Hall. now right.
Qed.

Lemma extractFrames_sound (File : Type)
    (decode : File -> Completion (list ParsedFrame.t)) (file : File)
    (steps : list ParsedFrame.t) (frames : list SpriteFrame.t) :
  decode file = Return steps ->
  Forall step_in_range steps ->
  extractFrames File decode file = Return frames ->
  frames = canonical_from 0 steps /\ Forall frame_sound frames.
Proof.
  unfold extractFrames. intros -> Hrange Hex. cbn [bind] in Hex.
  destruct (map_from_Return_inv steps 0 frames Hex) as [Hall ->].
  split; [reflexivity|]. now apply canonical_from_sound.
Qed.

(** X8: the frames the adapter returns are fit for the engine.  For
    decoded steps whose sizes are within the range of [unsigned long],
    each returned frame has a positive size, an image of exactly that size
    and four bytes per pixel; and any sheet the engine returns for them
    has one placement per decoded step, carrying the step's width, height
    and delay. *)
Theorem adapter_feeds_engine (File : Type)
    (decode : File -> Completion (list ParsedFrame.t)) (file : File)
    (steps : list ParsedFrame.t) (frames : list SpriteFrame.t)
    (env : Platform.Env) (config : ProcessingConfig.t) :
  decode file = Return steps ->
  Forall step_in_range steps ->
  extractFrames File decode file = Return frames ->
  Forall frame_sound frames
  /\ length frames = length steps
  /\ forall res,
      generateSpritesheet env frames config = Return res ->
      length (SpriteSheetResult.frames res) = length steps
      /\ forall i d,
          nth_error steps i = Some d ->
          exists p,
            nth_error (SpriteSheetResult.frames res) i = Some p
            /\ Placement.w p = Dims.width (ParsedFrame.dims d)
            /\ Placement.h p = Dims.height (ParsedFrame.dims d)
            /\ Placement.duration p = ParsedFrame.delay d.
Proof.
  intros Hdec Hrange Hex.
  destruct (extractFrames_sound _ _ _ _ _ Hdec Hrange Hex) as [-> Hsound].
  split; [exact Hsound|]. split; [apply canonical_from_length|].
  intros res Hres.
  destruct (generateSpritesheet_inv _ _ _ _ Hres) as (_ & _ & _ & Hfs & _).
  rewrite Hfs. split.
  - now rewrite placements_from_length, canonical_from_length.
  - intros i d Hd. rewrite placements_from_nth, canonical_from_nth, Hd.
    simpl. eexists. split; [reflexivity|]. simpl. auto.
Qed.

Lemma adapter_feeds_engine_witness :
  exists frames res,
    extractFrames unit (fun _ => Return two_steps) tt = Return frames
    /\ generateSpritesheet sample_env frames
         (ProcessingConfig.mk horizontal 1 (Some 5)) = Return res
    /\ Forall frame_sound frames
    /\ length (SpriteSheetResult.frames res) = 2%nat.
Proof.
  assert (Hrange : Forall step_in_range two_steps).
  { unfold two_steps.
    repeat (apply Forall_cons; [unfold step_in_range; simpl; lia|]).
    apply Forall_nil. }
  eexists. eexists. split; [reflexivity|]. split; [reflexivity|].
  destruct (adapter_feeds_engine unit (fun _ => Return two_steps) tt
              two_steps _ sample_env
              (ProcessingConfig.mk horizontal 1 (Some 5))
              eq_refl Hrange eq_refl) as (Hsound & _ & Hrun).
  split; [exact Hsound|].
  exact (proj1 (Hrun _ eq_refl)).
Defined.

(** ** File names *)

Lemma split_not_nil (sep : ascii) (s : string) : split sep s <> [].
Proof.
  destruct s as [|c rest]; simpl; [discriminate|].
  destruct (split sep rest); [discriminate|].
  destruct (Ascii.eqb c sep); discriminate.
Qed.

(** Joining the pieces with the separator gives the string back. *)
Lemma join_split (sep : ascii) (s : string) :
  join (String sep EmptyString) (split sep s) = s.
Proof.
  induction s as [|c rest IH]; simpl; [reflexivity|].
  pose proof (split_not_nil sep rest) as Hne.
  destruct (split sep rest) as [|piece pieces]; [congruence|].
  destruct (Ascii.eqb_spec c sep) as [->|Hc].
  - change (join (String sep EmptyString) (EmptyString :: piece :: pieces))
      with (String sep (join (String sep EmptyString) (piece :: pieces))).
    now rewrite IH.
  - destruct pieces as [|piece' pieces]; simpl in *; now rewrite IH.
Qed.

Lemma split_free_of (sep : ascii) (s : string) :
  free_of sep s = true -> split sep s = [s].
Proof.
  induction s as [|c rest IH]; simpl; [reflexivity|].
  intros H. apply andb_true_iff in H as [Hc Hrest].
  rewrite (IH Hrest). apply negb_true_iff in Hc. now rewrite Hc.
Qed.

(** The piece after the last separator is the last piece. *)
Lemma split_last_piece (sep : ascii) (base ext : string) :
  free_of sep ext = true ->
  split sep (base ++ String sep ext) = split sep base ++ [ext].
Proof.
  intros Hext. induction base as [|c rest IH]; simpl.
  - rewrite (split_free_of sep ext Hext). now rewrite Ascii.eqb_refl.
  - rewrite IH.
    pose proof (split_not_nil sep rest) as Hne.
    destruct (split sep rest) as [|piece pieces]; [congruence|]. simpl.
    destruct (Ascii.eqb c sep); reflexivity.
Qed.

Lemma js_or_string_not_empty (s d : string) :
  d <> EmptyString -> js_or_string s d <> EmptyString.
Proof. destruct s; simpl; [auto | discriminate]. Qed.

Lemma safeName_of_extension (base ext : string) :
  free_of "."%char ext = true ->
  App.safeName (base ++ String "."%char ext) = js_or_string base "spritesheet"%string.
Proof.
  intros Hext. unfold App.safeName.
  rewrite (split_last_piece "."%char base ext Hext), removelast_last.
  now rewrite (join_split "."%char base).
Qed.

(** X9: the name the application takes from a selected file.  For a name
    [base.ext], [ext] being what follows the last dot, it is [base]; it is
    "spritesheet" when the name has no dot or nothing before its only dot;
    it is never empty.  So after selecting [base.ext] the downloads are
    named [base.png] and [base.json]. *)
Theorem safeName_spec (file_name : string) :
  App.safeName file_name <> EmptyString
  /\ (free_of "."%char file_name = true -> App.safeName file_name = "spritesheet"%string)
  /\ (forall base ext,
        file_name = (base ++ "." ++ ext)%string ->
        free_of "."%char ext = true ->
        App.safeName file_name = js_or_string base "spritesheet"%string
        /\ (base <> EmptyString ->
            (App.safeName file_name ++ "." ++ ext)%string = file_name
            /\ forall decode file st frames,
                App.name file = file_name ->
                extractFrames App.File decode file = Return frames ->
                let st' := fst (App.handleFileSelect decode file st) in
                App.png_name st' = (base ++ ".png")%string
                /\ App.json_name st' = (base ++ ".json")%string)).
Proof.
  split; [|split].
  - apply js_or_string_not_empty. discriminate.
  - intros Hfree. unfold App.safeName.
    now rewrite (split_free_of "."%char file_name Hfree).
  - intros base ext -> Hext.
    change (base ++ "." ++ ext)%string with (base ++ String "."%char ext)%string.
    rewrite (safeName_of_extension base ext Hext).
    split; [reflexivity|]. intros Hbase.
    assert (Hor : js_or_string base "spritesheet"%string = base)
      by (destruct base; [congruence | reflexivity]).
    rewrite Hor. split; [reflexivity|].
    intros decode file st frames Hname Hex. unfold App.handleFileSelect.
    rewrite Hex. cbn [fst]. unfold App.png_name, App.json_name.
    cbn [App.filename]. rewrite Hname.
    rewrite (safeName_of_extension base ext Hext), Hor, Hor. auto.
Qed.

Lemma safeName_spec_witness :
  App.safeName "walk.cycle.gif"%string = "walk.cycle"%string
  /\ App.safeName "README"%string = "spritesheet"%string
  /\ App.png_name
       (fst (App.handleFileSelect (fun _ => Return two_steps) walk_file
               App.initial))
     = "walk.cycle.png"%string.
Proof.
  destruct (safeName_spec "walk.cycle.gif"%string) as (_ & _ & Hext).
  destruct (safeName_spec "README"%string) as (_ & Hplain & _).
  destruct (Hext "walk.cycle"%string "gif"%string eq_refl eq_refl)
    as [Hname Hdown].
  destruct (Hdown ltac:(discriminate)) as [_ Hst].
  split; [exact Hname|]. split; [exact (Hplain eq_refl)|].
  exact (proj1 (Hst (fun _ => Return two_steps) walk_file App.initial _
                  eq_refl eq_refl)).
Defined.

(** ** Removing a frame *)

Lemma filter_out_from_past (prev : list SpriteFrame.t) :
  forall i index, (index < i)%nat -> App.filter_out_from i index prev = prev.
Proof.
  induction prev as [|frame more IH]; intros i index Hlt; simpl; auto.
  destruct (Nat.eqb_spec i index); [lia|]. simpl. f_equal. apply IH. lia.
Qed.

Lemma filter_out_from_spec (prev : list SpriteFrame.t) :
  forall i index,
    (i <= index)%nat ->
    App.filter_out_from i index prev
    = firstn (index - i) prev ++ skipn (S (index - i)) prev.
Proof.
  induction prev as [|frame more IH]; intros i index Hle.
  - now rewrite firstn_nil.
  - cbn [App.filter_out_from].
    destruct (Nat.eqb_spec i index) as [->|Hne]; cbn [negb].
    + rewrite Nat.sub_diag. rewrite filter_out_from_past by lia. reflexivity.
    + rewrite IH by lia.
      replace (index - i)%nat with (S (index - S i)) by lia.
      reflexivity.
Qed.

(** X10: removing a frame by its position takes out exactly that frame:
    the frames before it and the frames after it stay, in order and as
    they are (ids included); a position beyond the list removes
    nothing. *)
Theorem onRemoveFrame_spec (index : nat) (st : App.State) :
  let prev := App.frames st in
  let next := App.frames (App.onRemoveFrame index st) in
  next = firstn index prev ++ skipn (S index) prev
  /\ ((index < length prev)%nat -> S (length next) = length prev)
  /\ ((length prev <= index)%nat -> next = prev)
  /\ (forall k, (k < index)%nat -> nth_error next k = nth_error prev k)
  /\ (forall k, (index <= k)%nat -> nth_error next k = nth_error prev (S k)).
Proof.
  intros prev next.
  assert (E : next = firstn index prev ++ skipn (S index) prev).
  { subst next prev. unfold App.onRemoveFrame. cbn [App.frames].
    rewrite filter_out_from_spec by lia. now rewrite Nat.sub_0_r. }
  split; [exact E|]. rewrite E. split; [|split; [|split]].
  - intros Hlt. rewrite length_app, length_firstn, length_skipn. lia.
  - intros Hge. rewrite firstn_all2 by lia. rewrite skipn_all2 by lia.
    apply app_nil_r.
  - intros k Hk.
    destruct (Nat.le_gt_cases (length prev) k) as [Hlen|Hlen].
    + rewrite firstn_all2 by lia. rewrite skipn_all2 by lia.
      now rewrite app_nil_r.
    + rewrite nth_error_app1 by (rewrite length_firstn; lia).
      rewrite nth_error_firstn.
      destruct (Nat.ltb_spec k index); [reflexivity | lia].
  - intros k Hk.
    destruct (Nat.le_gt_cases (length prev) index) as [Hlen|Hlen].
    + rewrite firstn_all2 by lia. rewrite skipn_all2 by lia.
      rewrite app_nil_r.
      rewrite (proj2 (nth_error_None prev k)) by lia.
      symmetry. apply nth_error_None. lia.
    + rewrite nth_error_app2 by (rewrite length_firstn; lia).
      rewrite length_firstn, nth_error_skipn.
      f_equal. lia.
Qed.

(** ** The number of columns from the sidebar *)

(** X11: whatever is typed into the columns field, the application keeps a
    number of columns of at least 1: the number typed when that is 1 or
    more, else 1.  The engine, in its [grid] mode, then lays the frames
    out on exactly that many columns: the square-root default is never
    taken from the application. *)
Theorem columns_from_input_spec (parsed : option Z) :
  let c := App.columns_from_input parsed in
  1 <= c
  /\ (forall n, parsed = Some n -> 1 <= n -> c = n)
  /\ (forall n, parsed = Some n -> n < 1 -> c = 1)
  /\ (parsed = None -> c = 1)
  /\ columns_valid (Some c)
  /\ forall count,
       fst (grid_shape grid (Some c) count) = c
       /\ (1 <= count ->
           is_ceil_quot count c (snd (grid_shape grid (Some c) count))).
Proof.
  intros c. subst c. unfold App.columns_from_input.
  assert (Hpos : 1 <= Z.max 1 (js_or parsed 1)) by lia.
  split; [exact Hpos|]. split; [|split; [|split; [|split]]].
  - intros n -> Hn. simpl. destruct (Z.eqb_spec n 0); lia.
  - intros n -> Hn. simpl. destruct (Z.eqb_spec n 0); lia.
  - intros ->. reflexivity.
  - exact Hpos.
  - intros count. cbn [grid_shape fst snd js_or].
    destruct (Z.eqb_spec (Z.max 1 (js_or parsed 1)) 0) as [E|_]; [lia|].
    split; [reflexivity|]. intros _. apply Math_ceil_div_spec. lia.
Qed.

(** ** What holds in every state of the application *)

Lemma filter_out_from_Forall (P : SpriteFrame.t -> Prop)
    (prev : list SpriteFrame.t) :
  Forall P prev -> forall i index, Forall P (App.filter_out_from i index prev).
Proof.
  induction 1 as [|frame more Hf _ IH]; intros i index; simpl.
  - constructor.
  - destruct (negb (i =? index)%nat); [constructor|]; auto.
Qed.

Lemma handleFileSelect_invariant
    (decode : App.File -> Completion (list ParsedFrame.t))
    (file : App.File) (st : App.State) :
  decoder_in_range decode ->
  app_invariant st ->
  app_invariant (fst (App.handleFileSelect decode file st)).
Proof.
  intros Hdec [Hc Hf]. unfold App.handleFileSelect.
  destruct (extractFrames App.File decode file) as [fs|e] eqn:Hex;
    split; cbn; auto.
  destruct (decode file) as [steps|e] eqn:Hsteps.
  - exact (proj2 (extractFrames_sound _ _ _ _ _ Hsteps
                    (Hdec file steps Hsteps) Hex)).
  - unfold extractFrames in Hex. rewrite Hsteps in Hex. discriminate.
Qed.

Lemma handle_invariant (env : Platform.Env)
    (decode : App.File -> Completion (list ParsedFrame.t))
    (ev : App.Event) (st : App.State) :
  decoder_in_range decode ->
  app_invariant st -> app_invariant (fst (App.handle env decode ev st)).
Proof.
  intros Hdec Hinv. pose proof Hinv as [Hc Hf].
  destruct ev; cbn [App.handle].
  - now apply handleFileSelect_invariant.
  - destruct (String.eqb _ _); [now apply handleFileSelect_invariant | exact Hinv].
  - apply handleFileSelect_invariant; [exact Hdec | exact Hinv].
  - exact Hinv.
  - destruct inside; exact Hinv.
  - split; cbn; [exact Hc | now apply filter_out_from_Forall].
  - exact Hinv.
  - exact Hinv.
  - split; cbn; [unfold App.columns_from_input; lia | exact Hf].
  - exact Hinv.
  - unfold App.reprocess. destruct (App.frames st) eqn:Efr; [exact Hinv|].
    destruct (generateSpritesheet _ _ _); split; cbn; rewrite ?Efr; auto;
      now rewrite <- Efr.
Qed.

Lemma run_invariant (env : Platform.Env)
    (decode : App.File -> Completion (list ParsedFrame.t))
    (events : list App.Event) :
  decoder_in_range decode ->
  forall st, app_invariant st ->
             app_invariant (fst (App.run env decode events st)).
Proof.
  intros Hdec.
  induction events as [|ev more IH]; intros st Hinv; simpl; [exact Hinv|].
  pose proof (handle_invariant env decode ev st Hdec Hinv) as Hstep.
  destruct (App.handle env decode ev st) as [st' out].
  specialize (IH st' Hstep).
  destruct (App.run env decode more st') as [st'' out']. exact IH.
Qed.

Lemma totals_positive (frames : list SpriteFrame.t)
    (config : ProcessingConfig.t) :
  frames <> [] -> Forall frame_sized frames -> config_valid config ->
  0 < totalWidth frames config /\ 0 < totalHeight frames config.
Proof.
  intros Hne Hsz [Hpad Hcol].
  apply columns_valid_not_negative in Hcol.
  pose proof (sheet_cols_pos frames config Hne Hcol) as Hc.
  pose proof (sheet_rows_pos frames config Hne Hcol) as Hr.
  destruct (cellWidth_is_max frames Hne) as [_ [fw [Hfw Ew]]].
  destruct (cellHeight_is_max frames Hne) as [_ [fh [Hfh Eh]]].
  rewrite Forall_forall in Hsz.
  destruct (Hsz fw Hfw) as [Hw _]. destruct (Hsz fh Hfh) as [_ Hh].
  unfold totalWidth, totalHeight. nia.
Qed.

(** X12: in every state the application can reach, by any sequence of its
    events, on any host and from any decoder whose sizes are within the
    range of [unsigned long]: the number of columns is at least 1, and
    every frame has a positive size, an image of exactly that size and
    four bytes per pixel.  So whenever there are frames and the padding is
    not negative, the engine is run by the application on a valid
    configuration and on frames of a proper size, for a sheet of a
    positive width and height; and a sheet it returns is stored, with one
    placement per frame, and nothing is logged. *)
Theorem app_reachable_states (env : Platform.Env)
    (decode : App.File -> Completion (list ParsedFrame.t))
    (events : list App.Event) :
  decoder_in_range decode ->
  let st := fst (App.run env decode events App.initial) in
  app_invariant st
  /\ (App.frames st <> [] ->
      0 <= App.padding st ->
      config_valid (App.config_of st)
      /\ Forall frame_sized (App.frames st)
      /\ Forall frame_consistent (App.frames st)
      /\ 0 < totalWidth (App.frames st) (App.config_of st)
      /\ 0 < totalHeight (App.frames st) (App.config_of st)
      /\ forall r,
          generateSpritesheet env (App.frames st) (App.config_of st)
          = Return r ->
          App.reprocess env st
          = (App.mkState (App.frames st) (App.layout st) (App.padding st)
               (App.columns st) (Some r) false (App.dragActive st)
               (App.filename st), [])
          /\ length (SpriteSheetResult.frames r) = length (App.frames st)).
Proof.
  intros Hdec st.
  assert (Hinit : app_invariant App.initial).
  { split; simpl; [lia | constructor]. }
  pose proof (run_invariant env decode events Hdec App.initial Hinit) as Hinv.
  fold st in Hinv. split; [exact Hinv|].
  destruct Hinv as [Hc Hsound]. intros Hne Hpad.
  assert (Hsized : Forall frame_sized (App.frames st)).
  { eapply Forall_impl; [|exact Hsound]. intros f Hf. apply Hf. }
  assert (Hcons : Forall frame_consistent (App.frames st)).
  { eapply Forall_impl; [|exact Hsound]. intros f Hf. apply Hf. }
  assert (Hvalid : config_valid (App.config_of st)) by (split; simpl; lia).
  destruct (totals_positive _ _ Hne Hsized Hvalid) as [HW HH].
  repeat (split; [assumption|]).
  intros r Hr. unfold App.reprocess.
  destruct (App.frames st) as [|f0 rest] eqn:Efr; [congruence|].
  rewrite <- Efr in *. rewrite Hr. split; [reflexivity|].
  destruct (generateSpritesheet_inv _ _ _ _ Hr) as (_ & _ & _ & Hfs & _).
  rewrite Hfs. apply placements_from_length.
Qed.

(** ** No frames left *)

Lemma no_frames_error_needs_no_frames (env : Platform.Env)
    (frames : list SpriteFrame.t) (config : ProcessingConfig.t) :
  frames <> [] ->
  generateSpritesheet env frames config
  <> Throw (Error "No frames to process").
Proof.
  intros Hne H.
  rewrite (generateSpritesheet_outcome env frames config Hne) in H.
  cbv zeta in H.
  destruct (_ || _) in H; [discriminate|].
  destruct (Platform.canvas_size_in_range _ _ _) in H; [|discriminate].
  destruct (Platform.context2d_available _ _ _) in H; [|discriminate].
  destruct (_ || _) in H; [discriminate|].
  destruct (Platform.encoding_failure _ _ _) in H; discriminate.
Qed.

(** X13: the application never runs the engine without frames, so the
    engine's error for no frames is never logged by the reprocessing; and
    when the only frame is removed, reprocessing changes nothing: the
    sheet made before stays in the state, as it was, with no frame left
    that it shows. *)
Theorem removing_the_only_frame (env : Platform.Env)
    (decode : App.File -> Completion (list ParsedFrame.t))
    (st : App.State) (f : SpriteFrame.t) :
  App.frames st = [f] ->
  (forall st0,
      ~ In (App.ConsoleError (Error "No frames to process"))
          (snd (App.reprocess env st0)))
  /\ App.run env decode [App.FrameRemoved 0; App.Reprocessed] st
     = (App.mkState [] (App.layout st) (App.padding st) (App.columns st)
          (App.result st) (App.isProcessing st) (App.dragActive st)
          (App.filename st), []).
Proof.
  intros Hone. split.
  - intros st0 Hin. unfold App.reprocess in Hin.
    destruct (App.frames st0) as [|f0 rest] eqn:Efr; [destruct Hin|].
    assert (Hne : App.frames st0 <> []) by (rewrite Efr; discriminate).
    rewrite <- Efr in Hin.
    destruct (generateSpritesheet env (App.frames st0) (App.config_of st0))
      as [r|e] eqn:Hg; [destruct Hin|].
    destruct Hin as [E|[]]. inversion E; subst e.
    exact (no_frames_error_needs_no_frames env _ _ Hne Hg).
  - simpl. unfold App.onRemoveFrame, App.reprocess. rewrite Hone. reflexivity.
Qed.

Lemma removing_the_only_frame_witness :
  App.result
    (fst (App.run sample_env (fun _ => Return two_steps)
            [App.FrameRemoved 0; App.Reprocessed] one_frame_state))
  = App.result one_frame_state
  /\ App.frames
       (fst (App.run sample_env (fun _ => Return two_steps)
               [App.FrameRemoved 0; App.Reprocessed] one_frame_state))
     = [].
Proof.
  destruct (removing_the_only_frame sample_env (fun _ => Return two_steps)
              one_frame_state (sample_frame 8 8 10) eq_refl) as [_ Hrun].
  rewrite Hrun. split; reflexivity.
Defined.

(** ** Playing the animation *)

(** The reads of the animation view on a list with a frame. *)
Lemma shown_frame_with_frames (frames : list SpriteFrame.t) (i : nat) :
  frames <> [] ->
  Preview.shown_frame Preview.animation frames i
  = match nth_error frames i with
    | Some frame => Return (Some frame)
    | None => Throw TypeError
    end.
Proof. destruct frames; [congruence | reflexivity]. Qed.

Lemma currentDelay_with_frames (frames : list SpriteFrame.t) (i : nat) :
  frames <> [] ->
  Preview.currentDelay true Preview.animation frames i
  = match nth_error frames i with
    | Some frame => Return (Some (js_or (Some (SpriteFrame.delay frame)) 100))
    | None => Throw TypeError
    end.
Proof. destruct frames; [congruence | reflexivity]. Qed.

(** X14: playing a list with at least one frame shows the frames in
    order, again and again: after [ticks] timeouts frame
    [ticks mod length] shows.  That frame is always there to read, and
    the timeout set for it is its delay, or 100 when its delay is 0:
    never 0. *)
Theorem playback_cycles (frames : list SpriteFrame.t) (ticks : nat) :
  frames <> [] ->
  let i := Preview.playback (length frames) ticks in
  i = (ticks mod length frames)%nat
  /\ (i < length frames)%nat
  /\ exists frame d,
      Preview.shown_frame Preview.animation frames i = Return (Some frame)
      /\ Preview.currentDelay true Preview.animation frames i
         = Return (Some d)
      /\ d <> 0
      /\ (SpriteFrame.delay frame <> 0 -> d = SpriteFrame.delay frame)
      /\ (SpriteFrame.delay frame = 0 -> d = 100).
Proof.
  intros Hne i.
  assert (Hlen : length frames <> 0%nat) by (destruct frames; simpl; congruence).
  assert (Hi : i = (ticks mod length frames)%nat).
  { subst i. induction ticks as [|t IH]; simpl.
    - symmetry. now apply Nat.Div0.mod_0_l.
    - unfold Preview.next_frameIndex. rewrite IH.
      rewrite Nat.Div0.add_mod_idemp_l. f_equal. lia. }
  assert (Hlt : (i < length frames)%nat)
    by (rewrite Hi; now apply Nat.mod_upper_bound).
  split; [exact Hi|]. split; [exact Hlt|].
  rewrite (shown_frame_with_frames frames i Hne).
  rewrite (currentDelay_with_frames frames i Hne).
  destruct (nth_error frames i) as [frame|] eqn:Hf.
  - exists frame, (js_or (Some (SpriteFrame.delay frame)) 100).
    split; [reflexivity|]. split; [reflexivity|]. simpl.
    destruct (Z.eqb_spec (SpriteFrame.delay frame) 0); repeat split; lia.
  - apply nth_error_None in Hf. lia.
Qed.

Lemma playback_cycles_witness :
  Preview.playback (length four_frames) 6 = 2%nat
  /\ Preview.currentDelay true Preview.animation four_frames 2
     = Return (Some 30).
Proof.
  destruct (playback_cycles four_frames 6 ltac:(discriminate))
    as (Hi & _ & _).
  split; [exact Hi | reflexivity].
Defined.

(** X15: in the animation view, with frames to show, [frames[frameIndex]]
    is read unguarded.  When a frame is removed while frame [frameIndex]
    shows, the read at the same index on the shorter list gives the frame
    that showed (a later frame was removed) or the one that followed it;
    if the last of two or more frames showed, there is no frame at that
    index any more and the read is a [TypeError]; if the only frame
    showed, no frame is left and nothing is read. *)
Theorem shown_frame_after_removal (frames : list SpriteFrame.t)
    (frameIndex index : nat) :
  (frameIndex < length frames)%nat ->
  (index < length frames)%nat ->
  let next := App.filter_out_from 0 index frames in
  ((frameIndex < index)%nat ->
   Preview.shown_frame Preview.animation next frameIndex
   = Preview.shown_frame Preview.animation frames frameIndex)
  /\ ((index <= frameIndex)%nat -> (S frameIndex < length frames)%nat ->
      Preview.shown_frame Preview.animation next frameIndex
      = Preview.shown_frame Preview.animation frames (S frameIndex))
  /\ (S frameIndex = length frames -> (2 <= length frames)%nat ->
      Preview.shown_frame Preview.animation next frameIndex = Throw TypeError
      /\ Preview.currentDelay true Preview.animation next frameIndex
         = Throw TypeError)
  /\ (length frames = 1%nat ->
      Preview.shown_frame Preview.animation next frameIndex = Return None
      /\ Preview.currentDelay true Preview.animation next frameIndex
         = Return None).
Proof.
  intros Hfi Hidx next.
  assert (Enext : next = firstn index frames ++ skipn (S index) frames).
  { subst next. rewrite filter_out_from_spec by lia.
    now rewrite Nat.sub_0_r. }
  assert (Hlen : S (length next) = length frames).
  { rewrite Enext, length_app, length_firstn, length_skipn. lia. }
  assert (Hne : frames <> []) by (intros ->; simpl in Hfi; lia).
  assert (Hnext : (2 <= length frames)%nat -> next <> []).
  { intros H2 E. rewrite E in Hlen. simpl in Hlen. lia. }
  split; [|split; [|split]].
  - intros Hlt.
    rewrite (shown_frame_with_frames next) by (apply Hnext; lia).
    rewrite (shown_frame_with_frames frames) by exact Hne.
    rewrite Enext, nth_error_app1 by (rewrite length_firstn; lia).
    rewrite nth_error_firstn.
    destruct (Nat.ltb_spec frameIndex index); [reflexivity | lia].
  - intros Hle Hlast.
    rewrite (shown_frame_with_frames next) by (apply Hnext; lia).
    rewrite (shown_frame_with_frames frames) by exact Hne.
    rewrite Enext, nth_error_app2 by (rewrite length_firstn; lia).
    rewrite length_firstn, nth_error_skipn.
    replace (S index + (frameIndex - Nat.min index (length frames)))%nat
      with (S frameIndex) by lia.
    reflexivity.
  - intros Hlast H2.
    rewrite (shown_frame_with_frames next) by (apply Hnext; lia).
    rewrite (currentDelay_with_frames next) by (apply Hnext; lia).
    assert (Hnone : nth_error next frameIndex = None)
      by (apply nth_error_None; lia).
    rewrite Hnone. split; reflexivity.
  - intros Hone.
    assert (E : next = []) by (destruct next; [reflexivity | simpl in Hlen; lia]).
    rewrite E. split; reflexivity.
Qed.

Lemma shown_frame_after_removal_witness :
  Preview.shown_frame Preview.animation four_frames 3
  = Return (Some (sample_frame 10 10 40))
  /\ Preview.shown_frame Preview.animation
       (App.filter_out_from 0 1 four_frames) 3
     = Throw TypeError
  /\ Preview.shown_frame Preview.animation
       (App.filter_out_from 0 0 [sample_frame 8 8 10]) 0
     = Return None.
Proof.
  split; [reflexivity|].
  destruct (shown_frame_after_removal four_frames 3 1
              ltac:(simpl; lia) ltac:(simpl; lia)) as (_ & _ & Hlast & _).
  destruct (shown_frame_after_removal [sample_frame 8 8 10] 0 0
              ltac:(simpl; lia) ltac:(simpl; lia)) as (_ & _ & _ & Hone).
  split.
  - exact (proj1 (Hlast eq_refl ltac:(simpl; lia))).
  - exact (proj1 (Hone eq_refl)).
Defined.

(** ** Sample runs of the application *)

Lemma onRemoveFrame_spec_witness :
  map SpriteFrame.delay
    (App.frames (App.onRemoveFrame 1
                   (App.mkState four_frames grid 2 5 None false false "walk")))
  = [10; 30; 40].
Proof.
  destruct (onRemoveFrame_spec 1
              (App.mkState four_frames grid 2 5 None false false "walk"))
    as [Hnext _].
  rewrite Hnext. reflexivity.
Defined.

Lemma columns_from_input_spec_witness :
  App.columns_from_input (Some 7) = 7
  /\ App.columns_from_input (Some 0) = 1
  /\ App.columns_from_input None = 1
  /\ fst (grid_shape grid (Some (App.columns_from_input (Some 7))) 4) = 7.
Proof.
  destruct (columns_from_input_spec (Some 7)) as (_ & Hbig & _ & _ & _ & Hgrid).
  destruct (columns_from_input_spec (Some 0)) as (_ & _ & Hsmall & _).
  destruct (columns_from_input_spec None) as (_ & _ & _ & Hnone & _).
  split; [exact (Hbig 7 eq_refl ltac:(lia))|].
  split; [exact (Hsmall 0 eq_refl ltac:(lia))|].
  split; [exact (Hnone eq_refl)|].
  exact (proj1 (Hgrid 4)).
Defined.

Lemma app_reachable_states_witness :
  let st := fst (App.run sample_env (fun _ => Return two_steps)
                   sample_session App.initial) in
  App.columns st = 1
  /\ length (App.frames st) = 1%nat
  /\ 0 < totalWidth (App.frames st) (App.config_of st)
  /\ exists r,
      generateSpritesheet sample_env (App.frames st) (App.config_of st)
      = Return r
      /\ length (SpriteSheetResult.frames r) = 1%nat.
Proof.
  cbv zeta.
  assert (Hdec : decoder_in_range
                   (fun _ : App.File => Return two_steps)).
  { intros file steps E. inversion E. unfold two_steps.
    repeat (apply Forall_cons; [unfold step_in_range; simpl; lia|]).
    apply Forall_nil. }
  destruct (app_reachable_states sample_env (fun _ => Return two_steps)
              sample_session Hdec) as [_ Hcall].
  destruct (Hcall ltac:(discriminate) ltac:(simpl; lia))
    as (_ & _ & _ & HW & _ & Hrun).
  split; [reflexivity|]. split; [reflexivity|]. split; [exact HW|].
  eexists. split; [reflexivity|].
  exact (proj2 (Hrun _ eq_refl)).
Defined.
